(** * Recipe book (lab2.py, lab3.py): a shallow embedding and its properties

    The two programs are small Python applications around a collection of
    recipes.  The window code is left out; the classes that hold the
    collection, sort it, search it, validate input and gate access are
    embedded here as Rocq definitions, one per Python method, and the
    properties of the specification are stated about them.

    Conventions of the embedding:
    - a Python [str] is the list of its Unicode code points ([list N]);
      comparison, [in], [strip] are written out on that list;
      [str.lower] is the one builtin that is taken as a parameter (the
      class [StrLower]), since its table is the Unicode case mapping;
    - a Python [int] is [Z];
    - an object with identity (a lab3 [Recipe], an observer) is a
      reference ([nat]); the fields of recipe objects live in a heap
      that is part of the state;
    - a method of [RecipeManager] is a computation in a state and error
      monad over the manager and the trace of [update()] calls made on
      observers; [raise] is the [Raise] outcome. *)

From Stdlib Require Import ZArith NArith List Bool Lia Ascii String.
From stdpp Require Import base option list sorting gmap.

Local Open Scope N_scope.
Set Warnings "-register-all".

(** ** Python values used by both programs *)

Module Py.

(** A [str]: its code points, in order. *)
Abbreviation char := N.
Abbreviation str := (list N).

(** A literal written in ASCII, turned into code points. *)
Definition lit (s : string) : str :=
  List.map N_of_ascii (list_ascii_of_string s).

(** [a < b] on [str]: lexicographic on code points, a proper prefix is
    smaller. *)
Fixpoint str_ltb (a b : str) : bool :=
  match a, b with
  | [], [] => false
  | [], _ :: _ => true
  | _ :: _, [] => false
  | x :: a', y :: b' =>
      if x <? y then true
      else if x =? y then str_ltb a' b'
      else false
  end.

(** [a == b] on [str]. *)
Fixpoint str_eqb (a b : str) : bool :=
  match a, b with
  | [], [] => true
  | x :: a', y :: b' => (x =? y) && str_eqb a' b'
  | _, _ => false
  end.

(** [s.startswith(p)]. *)
Fixpoint startswith (s p : str) : bool :=
  match p, s with
  | [], _ => true
  | _ :: _, [] => false
  | c :: p', d :: s' => (c =? d) && startswith s' p'
  end.

(** [sub in s]: [sub] occurs in [s] at some offset. *)
Fixpoint contains (s sub : str) : bool :=
  startswith s sub ||
  match s with
  | [] => false
  | _ :: s' => contains s' sub
  end.

(** [c.isspace()]: the code points Python treats as whitespace. *)
Definition isspace (c : char) : bool :=
  ((9 <=? c) && (c <=? 13)) || ((28 <=? c) && (c <=? 32)) ||
  (c =? 133) || (c =? 160) || (c =? 5760) ||
  ((8192 <=? c) && (c <=? 8202)) ||
  (c =? 8232) || (c =? 8233) || (c =? 8239) || (c =? 8287) || (c =? 12288).

Fixpoint lstrip (s : str) : str :=
  match s with
  | [] => []
  | c :: s' => if isspace c then lstrip s' else s
  end.

Definition rstrip (s : str) : str := rev (lstrip (rev s)).

(** [s.strip()]. *)
Definition strip (s : str) : str := rstrip (lstrip s).

(** Truth value of a sequence: non-empty. *)
Definition truthy {A} (l : list A) : bool :=
  match l with [] => false | _ :: _ => true end.

(** The exceptions the modelled code can raise. *)
Inductive exn :=
| ValueError (msg : str)
| AttributeError (attr : str)
| TypeError
| IndexError.

Inductive Result (A : Type) :=
| Ok (a : A)
| Raise (e : exn).
Arguments Ok {A} a.
Arguments Raise {A} e.

(** [x in l] for a list whose items compare by identity. *)
Fixpoint list_contains (x : nat) (l : list nat) : bool :=
  match l with
  | [] => false
  | y :: l' => (y =? x)%nat || list_contains x l'
  end.

(** [l.remove(x)]: drops the first item equal to [x]; [ValueError] when
    there is none. *)
Fixpoint list_remove (x : nat) (l : list nat) : Result (list nat) :=
  match l with
  | [] => Raise (ValueError (lit "list.remove(x): x not in list"))
  | y :: l' =>
      if (y =? x)%nat then Ok l'
      else match list_remove x l' with
           | Ok r => Ok (y :: r)
           | Raise e => Raise e
           end
  end.

(** [l.index(x)]: position of the first item equal to [x]. *)
Fixpoint list_index (x : nat) (l : list nat) : Result nat :=
  match l with
  | [] => Raise (ValueError (lit "x is not in list"))
  | y :: l' =>
      if (y =? x)%nat then Ok O
      else match list_index x l' with
           | Ok i => Ok (S i)
           | Raise e => Raise e
           end
  end.

(** [l[i] = x] for [0 <= i]: [IndexError] out of range. *)
Definition list_setitem (l : list nat) (i : nat) (x : nat) : Result (list nat) :=
  if (i <? length l)%nat then Ok (<[i := x]> l) else Raise IndexError.

(** [sorted(l, key=key)]: the result is ordered by [key], and items whose
    keys do not compare smaller keep their input order (the sort is
    stable and only ever asks [<] of two keys).  Written as insertion
    from the right: an item goes in front of the first item that is not
    smaller than it. *)
Section Sorted.
Context {A K : Type} (ltb : K -> K -> bool) (key : A -> K).

Fixpoint insert_sorted (x : A) (l : list A) : list A :=
  match l with
  | [] => [x]
  | y :: l' =>
      if ltb (key y) (key x) then y :: insert_sorted x l'
      else x :: y :: l'
  end.

Fixpoint sorted (l : list A) : list A :=
  match l with
  | [] => []
  | x :: l' => insert_sorted x (sorted l')
  end.

(** [y]'s key is not smaller than [x]'s: [x] may stand before [y]. *)
Definition not_after (x y : A) : Prop := ltb (key y) (key x) = false.
End Sorted.

(** [(a1, b1) < (a2, b2)] for a pair of an [int] and a [str]. *)
Definition tuple_ltb (a b : Z * str) : bool :=
  if (a.1 =? b.1)%Z then str_ltb a.2 b.2 else (a.1 <? b.1)%Z.

(** [s.lower()], as a parameter. *)
Class StrLower := lower : str -> str.

(** ASCII case folding: what [str.lower] does on code points below 128. *)
Definition ascii_lower_char (c : char) : char :=
  if (65 <=? c) && (c <=? 90) then c + 32 else c.

Definition ascii_lower (s : str) : str := List.map ascii_lower_char s.

End Py.
Import Py.

(** ** lab3.py *)

Module Lab3.

(** *** Recipe and its memento *)

Record Recipe := mkRecipe {
  name : str;
  ingredients : list str;
  instructions : str;
  preparation_time : Z
}.

Record RecipeMemento := mkRecipeMemento {
  m_name : str;
  m_ingredients : list str;
  m_instructions : str;
  m_preparation_time : Z
}.

(** [Recipe.create_memento]. *)
Definition create_memento (self : Recipe) : RecipeMemento :=
  mkRecipeMemento (name self) (ingredients self) (instructions self)
                  (preparation_time self).

(** [Recipe.restore_from_memento]: the four assignments, in order; the
    result is the object after the call. *)
Definition restore_from_memento (self : Recipe) (memento : RecipeMemento) : Recipe :=
  let self := mkRecipe (m_name memento) (ingredients self) (instructions self)
                       (preparation_time self) in
  let self := mkRecipe (name self) (m_ingredients memento) (instructions self)
                       (preparation_time self) in
  let self := mkRecipe (name self) (ingredients self) (m_instructions memento)
                       (preparation_time self) in
  mkRecipe (name self) (ingredients self) (instructions self)
           (m_preparation_time memento).

(** [NullRecipe()]: name "Рецепт не найден", nothing else. *)
Definition NullRecipe : Recipe :=
  mkRecipe [1056; 1077; 1094; 1077; 1087; 1090; 32; 1085; 1077; 32;
            1085; 1072; 1081; 1076; 1077; 1085] [] [] 0%Z.

(** *** The state the manager's methods run in *)

(** References to recipe objects and to observers. *)
Abbreviation Ref := nat.
Abbreviation Observer := nat.

Inductive SortStrategy :=
| SortByName
| SortByPreparationTime.

(** The attributes of a [RecipeManager] instance. *)
Record RecipeManager := mkRecipeManager {
  recipes : list Ref;
  observers : list Observer;
  sort_strategy : SortStrategy
}.

(** The manager, the recipe objects it refers to, and the [update()]
    calls received by observers so far (oldest first). *)
Record World := mkWorld {
  self : RecipeManager;
  heap : Ref -> Recipe;
  updates : list Observer
}.

(** Computations that read and write the world and may raise. *)
Definition M (A : Type) : Type := World -> Result (A * World).

Definition ret {A} (a : A) : M A := fun w => Ok (a, w).

Definition bind {A B} (m : M A) (k : A -> M B) : M B :=
  fun w =>
    match m w with
    | Ok (a, w') => k a w'
    | Raise e => Raise e
    end.

Declare Scope py_scope.
Delimit Scope py_scope with py.
Notation "x <- m ;; k" := (bind m (fun x => k))
  (at level 100, m at next level, right associativity) : py_scope.
Notation "m ;; k" := (bind m (fun _ => k))
  (at level 100, right associativity) : py_scope.
Local Open Scope py_scope.

(** A primitive that may raise, run in [M]. *)
Definition lift {A} (r : Result A) : M A :=
  fun w => match r with Ok a => Ok (a, w) | Raise e => Raise e end.

(** Read an attribute of [self]. *)
Definition gets {A} (f : RecipeManager -> A) : M A :=
  fun w => Ok (f (self w), w).

(** Read the fields of the recipe objects. *)
Definition deref : M (Ref -> Recipe) := fun w => Ok (heap w, w).

(** [self.recipes = l]. *)
Definition set_recipes (l : list Ref) : M unit :=
  fun w => Ok (tt, mkWorld (mkRecipeManager l (observers (self w))
                                            (sort_strategy (self w)))
                           (heap w) (updates w)).

(** [self.observers = l]; also the effect of an in-place change of the
    observer list. *)
Definition set_observers (l : list Observer) : M unit :=
  fun w => Ok (tt, mkWorld (mkRecipeManager (recipes (self w)) l
                                            (sort_strategy (self w)))
                           (heap w) (updates w)).

(** [self.sort_strategy = s]. *)
Definition set_strategy (s : SortStrategy) : M unit :=
  fun w => Ok (tt, mkWorld (mkRecipeManager (recipes (self w))
                                            (observers (self w)) s)
                           (heap w) (updates w)).

(** [observer.update()]: recorded in the trace. *)
Definition call_update (o : Observer) : M unit :=
  fun w => Ok (tt, mkWorld (self w) (heap w) (updates w ++ [o])).

(** [for x in l: body(x)]. *)
Fixpoint for_each {A} (l : list A) (body : A -> M unit) : M unit :=
  match l with
  | [] => ret tt
  | x :: l' => body x ;; for_each l' body
  end.

(** *** Sort strategies *)

Section WithLower.
Context {L : StrLower}.

(** [SortByName.sort]: key [r.name.lower()]. *)
Definition SortByName_sort (h : Ref -> Recipe) (l : list Ref) : list Ref :=
  sorted str_ltb (fun r => lower (name (h r))) l.

(** [SortByPreparationTime.sort]: key
    [(r.preparation_time, r.name.lower())]. *)
Definition SortByPreparationTime_sort (h : Ref -> Recipe) (l : list Ref) : list Ref :=
  sorted tuple_ltb
         (fun r => (preparation_time (h r), lower (name (h r)))) l.

(** [strategy.sort(recipes)], dispatched on the strategy's class. *)
Definition sort (s : SortStrategy) (h : Ref -> Recipe) (l : list Ref) : list Ref :=
  match s with
  | SortByName => SortByName_sort h l
  | SortByPreparationTime => SortByPreparationTime_sort h l
  end.

(** *** Keyword search *)

Record KeywordExpression := mkKeywordExpression { keyword : str }.

(** [KeywordExpression(keyword)]. *)
Definition KeywordExpression_init (kw : str) : KeywordExpression :=
  mkKeywordExpression (lower kw).

(** [KeywordExpression.interpret]. *)
Definition interpret (e : KeywordExpression) (recipe : Recipe) : bool :=
  contains (lower (name recipe)) (keyword e) ||
  existsb (fun ing => contains (lower ing) (keyword e)) (ingredients recipe).

(** *** RecipeManager *)

(** [RecipeManager()]. *)
Definition RecipeManager_init : RecipeManager :=
  mkRecipeManager [] [] SortByName.

(** [sort_recipes]: [recipes.copy()] has the items of [recipes]. *)
Definition sort_recipes : M unit :=
  s <- gets sort_strategy ;;
  l <- gets recipes ;;
  h <- deref ;;
  set_recipes (sort s h l).

Definition notify_observers : M unit :=
  obs <- gets observers ;;
  for_each obs call_update.

Definition add_recipe (recipe : Ref) : M unit :=
  l <- gets recipes ;;
  set_recipes (l ++ [recipe]) ;;
  sort_recipes ;;
  notify_observers.

Definition remove_recipe (recipe : Ref) : M unit :=
  l <- gets recipes ;;
  if list_contains recipe l then
    l' <- lift (list_remove recipe l) ;;
    set_recipes l' ;;
    notify_observers
  else ret tt.

Definition update_recipe (old_recipe new_recipe : Ref) : M unit :=
  l <- gets recipes ;;
  if list_contains old_recipe l then
    index <- lift (list_index old_recipe l) ;;
    l' <- lift (list_setitem l index new_recipe) ;;
    set_recipes l' ;;
    sort_recipes ;;
    notify_observers
  else ret tt.

Definition set_sort_strategy (strategy : SortStrategy) : M unit :=
  set_strategy strategy ;;
  sort_recipes ;;
  notify_observers.

Definition search_recipes (query : str) : M (list Ref) :=
  let expression := KeywordExpression_init query in
  l <- gets recipes ;;
  h <- deref ;;
  ret (List.filter (fun r => interpret expression (h r)) l).

Definition add_observer (observer : Observer) : M unit :=
  obs <- gets observers ;;
  set_observers (obs ++ [observer]).

Definition remove_observer (observer : Observer) : M unit :=
  obs <- gets observers ;;
  obs' <- lift (list_remove observer obs) ;;
  set_observers obs'.

(** *** Commands *)

(** A command holds the recipes it acts on; its [manager] attribute is
    the manager of the world it runs in. *)
Inductive Command :=
| AddRecipeCommand (recipe : Ref)
| DeleteRecipeCommand (recipe : Ref)
| EditRecipeCommand (old_recipe new_recipe : Ref).

Definition execute (c : Command) : M unit :=
  match c with
  | AddRecipeCommand recipe => add_recipe recipe
  | DeleteRecipeCommand recipe => remove_recipe recipe
  | EditRecipeCommand old_recipe new_recipe => update_recipe old_recipe new_recipe
  end.

Definition undo (c : Command) : M unit :=
  match c with
  | AddRecipeCommand recipe => remove_recipe recipe
  | DeleteRecipeCommand recipe => add_recipe recipe
  | EditRecipeCommand old_recipe new_recipe => update_recipe new_recipe old_recipe
  end.

(** A call of one of the manager's methods that change its state and do
    not raise. *)
Inductive Op :=
| Add (recipe : Ref)
| Remove (recipe : Ref)
| Update (old_recipe new_recipe : Ref)
| SetSort (strategy : SortStrategy)
| AddObserver (observer : Observer).

Definition call (o : Op) : M unit :=
  match o with
  | Add r => add_recipe r
  | Remove r => remove_recipe r
  | Update o n => update_recipe o n
  | SetSort s => set_sort_strategy s
  | AddObserver o => add_observer o
  end.

(** The calls of [ops], first to last. *)
Definition calls (ops : list Op) : M unit := for_each ops call.

End WithLower.

(** The world right after [RecipeManager()]: recipe objects [h] exist,
    no observer has been called. *)
Definition fresh_world (h : Ref -> Recipe) : World :=
  mkWorld RecipeManager_init h [].

(** *** Validators *)

(** A validator and its [next] attribute. *)
Inductive Validator :=
| BaseValidator (next : option Validator)
| NameValidator (next : option Validator)
| IngredientsValidator (next : option Validator).

(** Which [validate] bodies ran, in order. *)
Inductive Visited := VBase | VName | VIngredients.

(** "Название обязательно" *)
Definition NAME_REQUIRED : str :=
  [1053; 1072; 1079; 1074; 1072; 1085; 1080; 1077; 32; 1086; 1073; 1103;
   1079; 1072; 1090; 1077; 1083; 1100; 1085; 1086].

(** "Ингредиенты обязательны" *)
Definition INGREDIENTS_REQUIRED : str :=
  [1048; 1085; 1075; 1088; 1077; 1076; 1080; 1077; 1085; 1090; 1099; 32;
   1086; 1073; 1103; 1079; 1072; 1090; 1077; 1083; 1100; 1085; 1099].

(** [validate]: the outcome, and the validators whose check ran.
    [super().validate(recipe)] is the [next] branch. *)
Fixpoint validate (v : Validator) (recipe : Recipe) : list Visited * Result unit :=
  let super_validate (next : option Validator) :=
    match next with
    | Some n => validate n recipe
    | None => ([], Ok tt)
    end in
  match v with
  | BaseValidator next =>
      let '(t, r) := super_validate next in (VBase :: t, r)
  | NameValidator next =>
      if negb (truthy (strip (name recipe))) then
        ([VName], Raise (ValueError NAME_REQUIRED))
      else
        let '(t, r) := super_validate next in (VName :: t, r)
  | IngredientsValidator next =>
      if negb (truthy (ingredients recipe)) then
        ([VIngredients], Raise (ValueError INGREDIENTS_REQUIRED))
      else
        let '(t, r) := super_validate next in (VIngredients :: t, r)
  end.

(** [NameValidator(IngredientsValidator())], the chain of the dialogs. *)
Definition name_then_ingredients : Validator :=
  NameValidator (Some (IngredientsValidator None)).

End Lab3.

(** ** lab2.py *)

Module Lab2.

(** *** Components: ingredients and recipes *)

(** A [Recipe] has an id, a name, a category and an owner (either may be
    [None]) and its components; a component is an [Ingredient] or a
    [Recipe]. *)
Inductive Recipe :=
| mkRecipe (id name : str) (category owner : option str)
           (components : list RecipeComponent)
with RecipeComponent :=
| Ingredient (ingredient_name : str)
| SubRecipe (recipe : Recipe).

Definition id (r : Recipe) : str :=
  match r with mkRecipe i _ _ _ _ => i end.
Definition name (r : Recipe) : str :=
  match r with mkRecipe _ n _ _ _ => n end.
Definition category (r : Recipe) : option str :=
  match r with mkRecipe _ _ c _ _ => c end.
Definition owner (r : Recipe) : option str :=
  match r with mkRecipe _ _ _ o _ => o end.
Definition components (r : Recipe) : list RecipeComponent :=
  match r with mkRecipe _ _ _ _ cs => cs end.

(** [str(x)] for an attribute that is a [str] or [None]. *)
Definition format_opt (x : option str) : str :=
  match x with
  | Some s => s
  | None => lit "None"
  end.

(** [get_description] of [Recipe] and of a component. *)
Fixpoint Recipe_get_description (self : Recipe) : str :=
  match self with
  | mkRecipe _ name category _ components =>
      (name ++ lit " (" ++ format_opt category ++ [41; 10]) ++
      (fix loop (cs : list RecipeComponent) : str :=
         match cs with
         | [] => []
         | component :: cs' =>
             (lit "- " ++ Component_get_description component ++ [10])
               ++ loop cs'
         end) components
  end
with Component_get_description (c : RecipeComponent) : str :=
  match c with
  | Ingredient n => n
  | SubRecipe r => Recipe_get_description r
  end.

(** [get_ingredients]: the ingredient leaves, left to right, each by its
    name. *)
Fixpoint Recipe_get_ingredients (self : Recipe) : list str :=
  match self with
  | mkRecipe _ _ _ _ components =>
      (fix loop (cs : list RecipeComponent) : list str :=
         match cs with
         | [] => []
         | component :: cs' =>
             Component_get_ingredients component ++ loop cs'
         end) components
  end
with Component_get_ingredients (c : RecipeComponent) : list str :=
  match c with
  | Ingredient n => [n]
  | SubRecipe r => Recipe_get_ingredients r
  end.

(** *** The access proxy *)

Record ProtectedRecipe := mkProtectedRecipe {
  recipe : Recipe;
  user : str
}.

(** [x is None]. *)
Definition is_None {A} (x : option A) : bool :=
  match x with None => true | Some _ => false end.

(** [x == s] for [x] a [str] or [None] and [s] a [str]. *)
Definition opt_eqb (x : option str) (s : str) : bool :=
  match x with
  | Some t => str_eqb t s
  | None => false
  end.

Definition has_access (self : ProtectedRecipe) : bool :=
  is_None (owner (recipe self)) ||
  opt_eqb (owner (recipe self)) (user self) ||
  str_eqb (user self) (lit "admin").

(** "Доступ запрещен" *)
Definition ACCESS_DENIED : str :=
  [1044; 1086; 1089; 1090; 1091; 1087; 32; 1079; 1072; 1087; 1088; 1077;
   1097; 1077; 1085].

Definition get_description (self : ProtectedRecipe) : str :=
  if has_access self then Recipe_get_description (recipe self)
  else ACCESS_DENIED.

Definition get_ingredients (self : ProtectedRecipe) : list str :=
  if has_access self then Recipe_get_ingredients (recipe self)
  else [].

(** *** The repository and the manager *)

(** [InMemoryRecipeRepository]: its [recipes] dict, from id to recipe. *)
Record InMemoryRecipeRepository := mkRepository {
  recipes : gmap str Recipe
}.

Definition InMemoryRecipeRepository_init : InMemoryRecipeRepository :=
  mkRepository ∅.

Definition save_recipe (self : InMemoryRecipeRepository) (r : Recipe)
  : InMemoryRecipeRepository :=
  mkRepository (<[id r := r]> (recipes self)).

(** [self.recipes.get(recipe_id)]: [None] when the id is not a key. *)
Definition get_recipe (self : InMemoryRecipeRepository) (recipe_id : str)
  : option Recipe :=
  recipes self !! recipe_id.

(** The attributes an [InMemoryRecipeRepository] instance has: the
    [recipes] dict set by [__init__], and the three methods of the class
    (its base [RecipeRepository] declares the same three). *)
Inductive RepositoryAttr :=
| attr_recipes
| attr_save_recipe
| attr_get_recipe
| attr_get_all_recipes.

Definition repository_attrs : list (str * RepositoryAttr) :=
  [(lit "recipes", attr_recipes);
   (lit "save_recipe", attr_save_recipe);
   (lit "get_recipe", attr_get_recipe);
   (lit "get_all_recipes", attr_get_all_recipes)].

(** [repository.<attr>]: [AttributeError] for a name that is not there. *)
Fixpoint getattr (table : list (str * RepositoryAttr)) (attr : str)
  : Result RepositoryAttr :=
  match table with
  | [] => Raise (AttributeError attr)
  | (n, a) :: table' => if str_eqb n attr then Ok a else getattr table' attr
  end.

(** [f(recipe_id)] for an attribute [f] of the repository and a [str]
    argument, the value dropped: the dict is not callable,
    [save_recipe] reads [recipe_id.id], [get_all_recipes] takes no
    argument. *)
Definition call_with_id (f : RepositoryAttr) (self : InMemoryRecipeRepository)
           (recipe_id : str) : Result InMemoryRecipeRepository :=
  match f with
  | attr_recipes => Raise TypeError
  | attr_save_recipe => Raise (AttributeError (lit "id"))
  | attr_get_recipe => Ok self
  | attr_get_all_recipes => Raise TypeError
  end.

(** [RecipeManager]: the facade over a repository. *)
Record RecipeManager := mkRecipeManager {
  repository : InMemoryRecipeRepository
}.

Definition RecipeManager_add_recipe (self : RecipeManager) (r : Recipe)
  : RecipeManager :=
  mkRecipeManager (save_recipe (repository self) r).

(** [RecipeManager.get_recipe]: a [Recipe] object is always true, so the
    proxy is returned for every recipe found, and [None] otherwise. *)
Definition RecipeManager_get_recipe (self : RecipeManager) (recipe_id : str)
           (user : str) : option ProtectedRecipe :=
  match get_recipe (repository self) recipe_id with
  | Some r => Some (mkProtectedRecipe r user)
  | None => None
  end.

(** [RecipeManager.delete_recipe]:
    [self.repository.delete_recipe(recipe_id)]. *)
Definition RecipeManager_delete_recipe (self : RecipeManager) (recipe_id : str)
  : Result RecipeManager :=
  match getattr repository_attrs (lit "delete_recipe") with
  | Ok f =>
      match call_with_id f (repository self) recipe_id with
      | Ok repo => Ok (mkRecipeManager repo)
      | Raise e => Raise e
      end
  | Raise e => Raise e
  end.

End Lab2.

(** ** What the specification's words mean *)

Module Spec.

(** [a <= b] in dictionary order of code points. *)
Inductive lex_le : str -> str -> Prop :=
| lex_le_nil b : lex_le [] b
| lex_le_lt x y a b : x < y -> lex_le (x :: a) (y :: b)
| lex_le_eq x a b : lex_le a b -> lex_le (x :: a) (x :: b).

(** [sub] is a substring of [s]. *)
Definition substring (sub s : str) : Prop :=
  exists pre post, s = pre ++ sub ++ post.

(** [s] is not empty after trimming: it has a character that is not
    whitespace. *)
Definition nonblank (s : str) : Prop :=
  exists c, c ∈ s /\ isspace c = false.

Section WithLower.
Context {L : StrLower}.

(** [k] is a substring of [s], case ignored. *)
Definition ci_substring (k s : str) : Prop :=
  substring (lower k) (lower s).

(** The keyword occurs in the name or in some ingredient, case ignored. *)
Definition matches (k : str) (r : Lab3.Recipe) : Prop :=
  ci_substring k (Lab3.name r) \/
  exists ing, ing ∈ Lab3.ingredients r /\ ci_substring k ing.

(** Case-insensitive order on names. *)
Definition name_le (a b : Lab3.Recipe) : Prop :=
  lex_le (lower (Lab3.name a)) (lower (Lab3.name b)).

(** Ascending preparation time, ties by case-insensitive name. *)
Definition time_then_name_le (a b : Lab3.Recipe) : Prop :=
  (Lab3.preparation_time a < Lab3.preparation_time b)%Z \/
  (Lab3.preparation_time a = Lab3.preparation_time b /\ name_le a b).

Definition strategy_le (s : Lab3.SortStrategy) : Lab3.Recipe -> Lab3.Recipe -> Prop :=
  match s with
  | Lab3.SortByName => name_le
  | Lab3.SortByPreparationTime => time_then_name_le
  end.

(** The sequence [l] of recipe objects is in the order of strategy [s]:
    whatever stands earlier is below whatever stands later. *)
Definition ordered (s : Lab3.SortStrategy) (h : Lab3.Ref -> Lab3.Recipe)
           (l : list Lab3.Ref) : Prop :=
  forall i j ri rj, (i < j)%nat -> l !! i = Some ri -> l !! j = Some rj ->
                    strategy_le s (h ri) (h rj).

(** The collection of the manager is in the order of its active
    strategy. *)
Definition in_order (w : Lab3.World) : Prop :=
  ordered (Lab3.sort_strategy (Lab3.self w)) (Lab3.heap w)
          (Lab3.recipes (Lab3.self w)).

End WithLower.

(** [l] without the item at position [i]. *)
Definition without (i : nat) (l : list nat) : list nat :=
  take i l ++ drop (S i) l.

(** [l'] is what remains of [l] when exactly the items that satisfy [P]
    are kept, in their order. *)
Inductive selects {A} (P : A -> Prop) : list A -> list A -> Prop :=
| selects_nil : selects P [] []
| selects_keep x l l' : P x -> selects P l l' -> selects P (x :: l) (x :: l')
| selects_drop x l l' : ~ P x -> selects P l l' -> selects P (x :: l) l'.

End Spec.

(** ** Concrete recipes, used in the examples below *)

Module Examples.
Import Lab3.

Definition carbonara : Recipe :=
  mkRecipe (lit "Carbonara") [lit "Pasta"; lit "Eggs"; lit "Bacon"]
           (lit "Boil pasta...") 20.

Definition caesar : Recipe :=
  mkRecipe (lit "Caesar") [lit "Lettuce"; lit "Chicken"; lit "Croutons"]
           (lit "Toss...") 15.

(** Object 0 is Carbonara, object 1 is Caesar. *)
Definition kitchen (r : Ref) : Recipe :=
  match r with
  | O => carbonara
  | 1%nat => caesar
  | _ => mkRecipe (lit "Toast") [lit "Bread"] (lit "Toast it.") 3
  end.

(** Two different recipes that sort alike: same name up to case, same
    time. *)
Definition twins (r : Ref) : Recipe :=
  match r with
  | O => mkRecipe (lit "Soup") [lit "Water"; lit "Leek"] (lit "Simmer.") 30
  | _ => mkRecipe (lit "soup") [lit "Water"; lit "Beans"] (lit "Simmer.") 30
  end.

(** A manager holding [l], with no observer, sorting by name. *)
Definition holding (h : Ref -> Recipe) (l : list Ref) : World :=
  mkWorld (mkRecipeManager l [] SortByName) h [].

(** lab2: a recipe owned by alice. *)
Definition alice_pie : Lab2.Recipe :=
  Lab2.mkRecipe (lit "id-1") (lit "Pie") (Some (lit "Dessert"))
                (Some (lit "alice"))
                [Lab2.Ingredient (lit "Flour"); Lab2.Ingredient (lit "Apple")].

End Examples.

(** ** More of lab3.py: iteration, the dialogs' input, validator chains *)

Module Lab3Rest.
Import Lab3.

(** [s.split(sep)] for a separator of one character: the pieces between
    the occurrences of [sep], of which there is always at least one. *)
Fixpoint split_on (sep : char) (s : str) : list str :=
  match s with
  | [] => [[]]
  | c :: s' =>
      if c =? sep then [] :: split_on sep s'
      else match split_on sep s' with
           | piece :: pieces => (c :: piece) :: pieces
           | [] => [[c]]
           end
  end.

(** [sep.join(pieces)] for a separator of one character. *)
Fixpoint join (sep : char) (pieces : list str) : str :=
  match pieces with
  | [] => []
  | [piece] => piece
  | piece :: pieces' => piece ++ sep :: join sep pieces'
  end.

(** *** RecipeIterator *)

(** The iterator's [index]; its [manager] is the manager of the world. *)
Record RecipeIterator := mkRecipeIterator { index : nat }.

(** [RecipeManager.__iter__]. *)
Definition RecipeManager_iter : RecipeIterator := mkRecipeIterator 0.

(** What [__next__] does: return a recipe, or raise StopIteration. *)
Inductive Step :=
| Yield (recipe : Ref)
| StopIteration.

(** [RecipeIterator.__next__]: [self.index < len(self.manager.recipes)]
    holds exactly when [recipes[index]] exists; the list is read at the
    time of the call. *)
Definition next (it : RecipeIterator) (w : World) : Step * RecipeIterator :=
  match recipes (self w) !! index it with
  | Some recipe => (Yield recipe, mkRecipeIterator (index it + 1))
  | None => (StopIteration, it)
  end.

(** [for recipe in it: out.append(recipe)], the world not changing in
    between; [fuel] bounds the number of [__next__] calls. *)
Fixpoint drain (fuel : nat) (it : RecipeIterator) (w : World) : option (list Ref) :=
  match fuel with
  | O => None
  | S fuel' =>
      match next it w with
      | (Yield recipe, it') =>
          match drain fuel' it' w with
          | Some rest => Some (recipe :: rest)
          | None => None
          end
      | (StopIteration, _) => Some []
      end
  end.

(** [Recipe.__str__]. *)
Definition Recipe_str (r : Recipe) : str := name r.

(** The rows [MainWindow.update_list] puts into the list box:
    [str(recipe) for recipe in self.manager]. *)
Definition update_list_rows (fuel : nat) (w : World) : option (list str) :=
  match drain fuel RecipeManager_iter w with
  | Some l => Some (List.map (fun r => Recipe_str (heap w r)) l)
  | None => None
  end.

(** *** AddRecipeDialog.save and EditRecipeDialog.save *)

(** What [save] ends with: [self.result = recipe], or one of the two
    error boxes. *)
Inductive SaveOutcome :=
| Accepted (recipe : Recipe)
| NotANumber
| Invalid (reason : exn).

(** [save], as a function of what the four widgets hold: the name entry,
    the text of the ingredients box and of the instructions box as
    [get("1.0", END)] returns them, and the value of [int(...)] on the
    time entry ([None] when [int] raises ValueError). *)
Definition save (name_entry ingredients_text instructions_text : str)
           (parsed_time : option Z) : SaveOutcome :=
  let name := name_entry in
  let ingredients := split_on 10 (strip ingredients_text) in
  let instructions := strip instructions_text in
  match parsed_time with
  | None => NotANumber
  | Some preparation_time =>
      let recipe := mkRecipe name ingredients instructions preparation_time in
      match validate name_then_ingredients recipe with
      | (_, Raise e) => Invalid e
      | (_, Ok _) => Accepted recipe
      end
  end.

(** *** Reading a validator chain *)

(** The validators of a chain, first to last. *)
Fixpoint links (v : Validator) : list Visited :=
  let rest (next : option Validator) :=
    match next with Some n => links n | None => [] end in
  match v with
  | BaseValidator next => VBase :: rest next
  | NameValidator next => VName :: rest next
  | IngredientsValidator next => VIngredients :: rest next
  end.

(** The rule of one validator holds for the recipe. *)
Definition passes (recipe : Recipe) (k : Visited) : Prop :=
  match k with
  | VBase => True
  | VName => Spec.nonblank (name recipe)
  | VIngredients => ingredients recipe <> []
  end.

(** The error a validator raises when its rule fails. *)
Definition reason (k : Visited) : str :=
  match k with
  | VBase => []
  | VName => NAME_REQUIRED
  | VIngredients => INGREDIENTS_REQUIRED
  end.

(** No two different objects of [l] rank alike under strategy [s]. *)
Definition no_ties {L : StrLower} (s : SortStrategy) (h : Ref -> Recipe)
           (l : list Ref) : Prop :=
  forall x y, x ∈ l -> y ∈ l ->
              Spec.strategy_le s (h x) (h y) ->
              Spec.strategy_le s (h y) (h x) -> x = y.

End Lab3Rest.

(** ** More of lab2.py: components, the ingredient factory, search filters *)

Module Lab2Rest.
Import Lab2.

(** [Recipe(name, category, owner)]; [new_id] is the [uuid4] string
    drawn for it. *)
Definition Recipe_init (new_id name : str) (category owner : option str) : Recipe :=
  mkRecipe new_id name category owner [].

(** [Recipe.add_component]. *)
Definition add_component (self : Recipe) (component : RecipeComponent) : Recipe :=
  mkRecipe (id self) (name self) (category self) (owner self)
           (components self ++ [component]).

(** *** IngredientFactory *)

(** The factory's [ingredients] dict, from a name to the Ingredient
    object kept for it, and the Ingredient objects created so far: object
    number [i] has the name [objects !! i]. *)
Record FactoryWorld := mkFactoryWorld {
  ingredients : gmap str nat;
  objects : list str
}.

(** [IngredientFactory()], no Ingredient created yet. *)
Definition IngredientFactory_init : FactoryWorld := mkFactoryWorld ∅ [].

(** [IngredientFactory.get_ingredient]: the object returned, and the
    world after the call. *)
Definition get_ingredient (name : str) (w : FactoryWorld) : nat * FactoryWorld :=
  match ingredients w !! name with
  | Some obj => (obj, w)
  | None =>
      let obj := length (objects w) in
      (obj, mkFactoryWorld (<[name := obj]> (ingredients w))
                           (objects w ++ [name]))
  end.

(** [[factory.get_ingredient(n) for n in names]]. *)
Fixpoint get_ingredients_for (names : list str) (w : FactoryWorld)
  : list nat * FactoryWorld :=
  match names with
  | [] => ([], w)
  | n :: names' =>
      let '(obj, w1) := get_ingredient n w in
      let '(objs, w2) := get_ingredients_for names' w1 in
      (obj :: objs, w2)
  end.

(** The dict and the objects agree: a name is a key of the dict exactly
    for the object that carries it. *)
Definition consistent (w : FactoryWorld) : Prop :=
  forall (n : str) (obj : nat),
    ingredients w !! n = Some obj <-> objects w !! obj = Some n.

(** *** RecipeSearch and its decorators *)

Inductive RecipeSearch :=
| BaseSearch
| CategoryFilter (wrapped : RecipeSearch) (category : str).

(** [CategoryFilter.filter]. *)
Definition CategoryFilter_filter (category : str) (recipes : list Recipe)
  : list Recipe :=
  List.filter (fun r => opt_eqb (Lab2.category r) category) recipes.

(** [search]: [RecipeSearch.search] returns its argument,
    [FilterDecorator.search] filters what the wrapped search returns. *)
Fixpoint search (s : RecipeSearch) (recipes : list Recipe) : list Recipe :=
  match s with
  | BaseSearch => recipes
  | CategoryFilter wrapped category =>
      CategoryFilter_filter category (search wrapped recipes)
  end.

(** The categories a search asks for, outermost first. *)
Fixpoint categories (s : RecipeSearch) : list str :=
  match s with
  | BaseSearch => []
  | CategoryFilter wrapped category => category :: categories wrapped
  end.

(** *** The add-recipe window *)

(** [[i.strip() for i in text.split(',') if i.strip()]]. *)
Definition parse_ingredients (text : str) : list str :=
  List.map strip (List.filter (fun i => truthy (strip i))
                              (Lab3Rest.split_on 44 text)).

End Lab2Rest.

(** ** Facts about the Python primitives *)

Module PyFacts.

Lemma str_eqb_eq (a b : str) : str_eqb a b = true <-> a = b.
Proof.
  revert b; induction a as [|x a IH]; intros [|y b]; simpl; try easy.
  rewrite andb_true_iff, N.eqb_eq, IH. split.
  - intros [-> ->]; reflexivity.
  - intros E; injection E; auto.
Qed.

Lemma str_eqb_refl (a : str) : str_eqb a a = true.
Proof. apply str_eqb_eq; reflexivity. Qed.

Lemma str_ltb_irrefl (a : str) : str_ltb a a = false.
Proof.
  induction a as [|x a IH]; simpl; [reflexivity|].
  rewrite N.ltb_irrefl, N.eqb_refl. exact IH.
Qed.

Lemma str_ltb_asym (a b : str) : str_ltb a b = true -> str_ltb b a = false.
Proof.
  revert b; induction a as [|x a IH]; intros [|y b]; simpl; try easy.
  destruct (N.ltb_spec x y) as [Hxy|Hxy].
  - intros _. destruct (N.ltb_spec y x); [lia|].
    destruct (N.eqb_spec y x); [lia|reflexivity].
  - destruct (N.eqb_spec x y) as [->|Hne]; [|discriminate].
    rewrite N.ltb_irrefl, N.eqb_refl. apply IH.
Qed.

(** [not (b < a)] and [not (c < b)] give [not (c < a)]. *)
Lemma str_le_trans (a b c : str) :
  str_ltb b a = false -> str_ltb c b = false -> str_ltb c a = false.
Proof.
  revert b c; induction a as [|x a IH]; intros [|y b] [|z c]; simpl; try easy.
  destruct (N.ltb_spec y x) as [Hyx|Hyx]; [discriminate|].
  destruct (N.ltb_spec z y) as [Hzy|Hzy]; [discriminate|].
  destruct (N.eqb_spec y x) as [->|Hne1].
  - destruct (N.eqb_spec z x) as [->|Hne2].
    + rewrite N.ltb_irrefl. apply IH.
    + intros _ _. destruct (N.ltb_spec z x); [lia|reflexivity].
  - intros _. destruct (N.eqb_spec z y) as [->|Hne2].
    + intros _. destruct (N.ltb_spec y x); [lia|].
      destruct (N.eqb_spec y x); [contradiction|reflexivity].
    + intros _. destruct (N.ltb_spec z x); [lia|].
      destruct (N.eqb_spec z x); [lia|reflexivity].
Qed.

(** The code's [<] and the dictionary order say the same. *)
Lemma str_ltb_false_lex_le (a b : str) :
  str_ltb b a = false <-> Spec.lex_le a b.
Proof.
  split.
  - revert b; induction a as [|x a IH]; intros b Hb; [constructor|].
    destruct b as [|y b]; simpl in Hb; [discriminate|].
    destruct (N.ltb_spec y x) as [Hyx|Hyx]; [discriminate|].
    destruct (N.eqb_spec y x) as [->|Hne].
    + apply Spec.lex_le_eq, IH, Hb.
    + apply Spec.lex_le_lt. lia.
  - induction 1 as [b|x y a b Hxy|x a b Hab IH]; simpl.
    + destruct b; reflexivity.
    + destruct (N.ltb_spec y x); [lia|].
      destruct (N.eqb_spec y x); [lia|reflexivity].
    + rewrite N.ltb_irrefl, N.eqb_refl. exact IH.
Qed.

Lemma tuple_ltb_false (a b : Z * str) :
  tuple_ltb a b = false <->
  (b.1 < a.1)%Z \/ (a.1 = b.1 /\ str_ltb a.2 b.2 = false).
Proof.
  unfold tuple_ltb. destruct (Z.eqb_spec a.1 b.1) as [E|E].
  - split; [intros Hs; right; auto|]. intros [Hlt|[_ Hs]]; [lia|exact Hs].
  - rewrite Z.ltb_ge. split; [intros Hle; left; lia|].
    intros [Hlt|[E' _]]; [lia|contradiction].
Qed.

Lemma tuple_ltb_asym (a b : Z * str) :
  tuple_ltb a b = true -> tuple_ltb b a = false.
Proof.
  intros Hab. apply tuple_ltb_false. revert Hab. unfold tuple_ltb.
  destruct (Z.eqb_spec a.1 b.1) as [E|E].
  - intros Hs%str_ltb_asym. right. auto.
  - intros Hlt%Z.ltb_lt. left. exact Hlt.
Qed.

Lemma tuple_le_trans (a b c : Z * str) :
  tuple_ltb b a = false -> tuple_ltb c b = false -> tuple_ltb c a = false.
Proof.
  rewrite !tuple_ltb_false.
  intros [H1|[E1 S1]] [H2|[E2 S2]]; try (left; lia).
  right. split; [congruence|]. eapply str_le_trans; eassumption.
Qed.

Lemma startswith_app (s p : str) :
  startswith s p = true <-> exists post, s = p ++ post.
Proof.
  revert s; induction p as [|c p IH]; intros s; simpl.
  - split; [intros _; exists s; reflexivity|intros _; destruct s; reflexivity].
  - destruct s as [|d s]; simpl.
    + split; [discriminate|intros [post E]; discriminate].
    + rewrite andb_true_iff, N.eqb_eq, IH. split.
      * intros [-> [post ->]]. exists post; reflexivity.
      * intros [post E]. injection E as -> ->. split; [reflexivity|eauto].
Qed.

(** [sub in s] decides the substring relation. *)
Lemma contains_substring (s sub : str) :
  contains s sub = true <-> Spec.substring sub s.
Proof.
  unfold Spec.substring.
  induction s as [|d s IH]; cbn [contains].
  - rewrite orb_false_r, startswith_app. split.
    + intros [post E]. exists [], post. exact E.
    + intros [pre [post E]]. destruct pre; [eauto|discriminate].
  - rewrite orb_true_iff, IH, startswith_app. split.
    + intros [[post E]|[pre [post E]]].
      * exists [], post. exact E.
      * exists (d :: pre), post. rewrite E. reflexivity.
    + intros [[|d' pre] [post E]].
      * left. exists post. exact E.
      * right. injection E as -> E. eauto.
Qed.

Lemma contains_empty (s : str) : contains s [] = true.
Proof. apply contains_substring. exists [], s. reflexivity. Qed.

Lemma lstrip_nil_iff (s : str) :
  lstrip s = [] <-> Forall (fun c => isspace c = true) s.
Proof.
  induction s as [|c s IH]; simpl.
  - split; [constructor|reflexivity].
  - destruct (isspace c) eqn:E.
    + rewrite IH. split; [intros; constructor; assumption|].
      intros F; inversion F; assumption.
    + split; [discriminate|]. intros F; inversion F; congruence.
Qed.

Lemma lstrip_suffix (s : str) : exists pre, s = pre ++ lstrip s.
Proof.
  induction s as [|c s [pre IH]]; simpl.
  - exists []; reflexivity.
  - destruct (isspace c).
    + exists (c :: pre). simpl. f_equal. exact IH.
    + exists []. reflexivity.
Qed.

Lemma lstrip_head (s : str) c t : lstrip s = c :: t -> isspace c = false.
Proof.
  induction s as [|d s IH]; simpl; [discriminate|].
  destruct (isspace d) eqn:E; [exact IH|].
  intros H; injection H as <- _. exact E.
Qed.

(** [s.strip()] is true exactly when [s] is not blank. *)
Lemma strip_truthy (s : str) : truthy (strip s) = true <-> Spec.nonblank s.
Proof.
  unfold strip, rstrip, Spec.nonblank. split.
  - intros Ht.
    destruct (lstrip (rev (lstrip s))) as [|c t] eqn:E; [discriminate|].
    exists c. split; [|eapply lstrip_head; exact E].
    destruct (lstrip_suffix (rev (lstrip s))) as [p1 E1].
    destruct (lstrip_suffix s) as [p2 E2].
    rewrite E2. apply elem_of_app; right.
    apply elem_of_reverse. fold (rev (lstrip s)) in *.
    unfold reverse. rewrite <- rev_alt, E1, E.
    apply elem_of_app; right. left.
  - intros [c [Hin Hc]].
    assert (Hl : lstrip s <> []).
    { intros E%lstrip_nil_iff. rewrite Forall_forall in E.
      specialize (E c Hin). congruence. }
    assert (Hr : lstrip (rev (lstrip s)) <> []).
    { intros E%lstrip_nil_iff. rewrite Forall_forall in E.
      destruct (lstrip s) as [|d t] eqn:El; [congruence|].
      pose proof (lstrip_head _ _ _ El) as Hd.
      specialize (E d). rewrite E in Hd; [discriminate|].
      apply list_elem_of_In, in_rev. rewrite rev_involutive. left; reflexivity. }
    destruct (lstrip (rev (lstrip s))) as [|d t]; [congruence|].
    destruct (rev (d :: t)) eqn:Er; [|reflexivity].
    apply (f_equal (@rev _)) in Er. rewrite rev_involutive in Er.
    discriminate.
Qed.

(** *** [in], [remove], [index] on lists of references *)

Lemma list_contains_elem_of (x : nat) (l : list nat) :
  list_contains x l = true <-> x ∈ l.
Proof.
  induction l as [|y l IH]; simpl.
  - split; [discriminate|]. intros Hx; inversion Hx.
  - rewrite orb_true_iff, Nat.eqb_eq, IH, elem_of_cons. split.
    + intros [->|Hx]; auto.
    + intros [->|Hx]; auto.
Qed.

Lemma list_contains_false (x : nat) (l : list nat) :
  list_contains x l = false <-> x ∉ l.
Proof.
  rewrite <- list_contains_elem_of. destruct (list_contains x l); split; congruence.
Qed.

(** [remove] on a list that has [x] drops its first occurrence. *)
Lemma list_remove_first (x : nat) (l : list nat) :
  x ∈ l ->
  exists i, l !! i = Some x /\
            (forall j, (j < i)%nat -> l !! j <> Some x) /\
            list_remove x l = Ok (Spec.without i l).
Proof.
  induction l as [|y l IH]; intros Hx; [inversion Hx|].
  simpl. destruct (Nat.eqb_spec y x) as [->|Hne].
  - exists O. split; [reflexivity|]. split; [lia|].
    unfold Spec.without. simpl. rewrite drop_0. reflexivity.
  - apply elem_of_cons in Hx as [E|Hx]; [congruence|].
    destruct (IH Hx) as (i & Hi & Hfirst & Hrm).
    exists (S i). split; [exact Hi|]. split.
    + intros [|j] Hj; simpl; [congruence|]. apply Hfirst. lia.
    + rewrite Hrm. reflexivity.
Qed.

(** [remove] on a list that does not have [x] raises. *)
Lemma list_remove_absent (x : nat) (l : list nat) :
  x ∉ l -> exists e, list_remove x l = Raise e.
Proof.
  induction l as [|y l IH]; intros Hx; simpl; [eauto|].
  apply not_elem_of_cons in Hx as [Hne Hx].
  destruct (Nat.eqb_spec y x); [congruence|].
  destruct (IH Hx) as [e ->]. eauto.
Qed.

Lemma list_remove_Forall (P : nat -> Prop) (x : nat) (l l' : list nat) :
  list_remove x l = Ok l' -> Forall P l -> Forall P l'.
Proof.
  revert l'; induction l as [|y l IH]; intros l'; simpl; [discriminate|].
  destruct (y =? x)%nat.
  - intros [= <-] F. inversion F; assumption.
  - destruct (list_remove x l) as [r|e]; [|discriminate].
    intros [= <-] F. inversion F; subst. constructor; auto.
Qed.

(** Dropping an item keeps a sequence in order. *)
Lemma list_remove_StronglySorted (R : nat -> nat -> Prop) (x : nat) (l l' : list nat) :
  list_remove x l = Ok l' -> StronglySorted R l -> StronglySorted R l'.
Proof.
  revert l'; induction l as [|y l IH]; intros l'; simpl; [discriminate|].
  destruct (y =? x)%nat.
  - intros [= <-] S. inversion S; assumption.
  - destruct (list_remove x l) as [r|e] eqn:E; [|discriminate].
    intros [= <-] S. inversion S; subst. constructor; [auto|].
    eapply list_remove_Forall; eassumption.
Qed.

(** [index] of an item of the list is a position inside the list. *)
Lemma list_index_in (x : nat) (l : list nat) :
  x ∈ l -> exists i, list_index x l = Ok i /\ (i < length l)%nat.
Proof.
  induction l as [|y l IH]; intros Hx; [inversion Hx|].
  simpl. destruct (Nat.eqb_spec y x) as [->|Hne].
  - exists O. split; [reflexivity|lia].
  - apply elem_of_cons in Hx as [E|Hx]; [congruence|].
    destruct (IH Hx) as (i & -> & Hi). exists (S i). split; [reflexivity|lia].
Qed.

(** *** [sorted] *)

Section SortedFacts.
Context {A K : Type} (ltb : K -> K -> bool) (key : A -> K).
Hypothesis ltb_asym : forall a b, ltb a b = true -> ltb b a = false.
Hypothesis le_trans :
  forall a b c, ltb b a = false -> ltb c b = false -> ltb c a = false.

Local Abbreviation le := (not_after ltb key).
Local Abbreviation ins := (insert_sorted ltb key).

Lemma insert_sorted_Permutation x l : ins x l ≡ₚ x :: l.
Proof.
  induction l as [|y l IH]; simpl; [reflexivity|].
  destruct (ltb (key y) (key x)); [|reflexivity].
  rewrite IH. apply Permutation_swap.
Qed.

Lemma sorted_Permutation l : sorted ltb key l ≡ₚ l.
Proof.
  induction l as [|x l IH]; simpl; [reflexivity|].
  rewrite insert_sorted_Permutation, IH. reflexivity.
Qed.

Lemma insert_sorted_StronglySorted x l :
  StronglySorted le l -> StronglySorted le (ins x l).
Proof.
  induction 1 as [|y l S IH F]; simpl.
  - repeat constructor.
  - destruct (ltb (key y) (key x)) eqn:E.
    + constructor; [exact IH|].
      rewrite insert_sorted_Permutation. constructor; [|exact F].
      apply ltb_asym, E.
    + constructor; [constructor; assumption|].
      constructor; [exact E|].
      eapply Forall_impl; [exact F|]. intros z Hz.
      unfold not_after in *. eapply le_trans; eassumption.
Qed.

(** The result of [sorted] is in order. *)
Lemma sorted_StronglySorted l : StronglySorted le (sorted ltb key l).
Proof.
  induction l as [|x l IH]; simpl; [constructor|].
  apply insert_sorted_StronglySorted, IH.
Qed.
End SortedFacts.

Section SortedStable.
Context {A K : Type} (ltb : K -> K -> bool) (key : A -> K).

Local Abbreviation le := (not_after ltb key).
Local Abbreviation ins := (insert_sorted ltb key).

(** An item that may stand before all of [l] is put in front. *)
Lemma insert_sorted_front x l : Forall (le x) l -> ins x l = x :: l.
Proof.
  destruct 1 as [|y l Hy F]; simpl; [reflexivity|].
  unfold not_after in Hy. rewrite Hy. reflexivity.
Qed.

(** A sequence already in order is left as it is. *)
Lemma sorted_fixed l : StronglySorted le l -> sorted ltb key l = l.
Proof.
  induction 1 as [|x l S IH F]; simpl; [reflexivity|].
  rewrite IH. apply insert_sorted_front, F.
Qed.

Lemma sorted_snoc l r : sorted ltb key (l ++ [r]) = foldr ins [r] l.
Proof.
  induction l as [|x l IH]; simpl; [reflexivity|]. rewrite IH. reflexivity.
Qed.
End SortedStable.

(** Appending a new object to a sequence in order, sorting, and removing
    the object again gives the sequence back. *)
Lemma remove_sorted_snoc {K} (ltb : K -> K -> bool) (key : nat -> K)
      (l : list nat) (r : nat) :
  StronglySorted (not_after ltb key) l -> r ∉ l ->
  list_remove r (sorted ltb key (l ++ [r])) = Ok l.
Proof.
  rewrite sorted_snoc.
  induction 1 as [|x l S IH F]; intros Hr; simpl.
  - rewrite Nat.eqb_refl. reflexivity.
  - apply not_elem_of_cons in Hr as [Hne Hr]. specialize (IH Hr).
    revert IH. generalize (foldr (insert_sorted ltb key) [r] l).
    intros acc. revert l S F Hr.
    induction acc as [|y acc IHacc]; intros l S F Hr; simpl; [discriminate|].
    destruct (Nat.eqb_spec y r) as [->|Hyr].
    + intros [= ->]. destruct (ltb (key r) (key x)) eqn:E; simpl.
      * rewrite Nat.eqb_refl. rewrite insert_sorted_front by exact F.
        reflexivity.
      * destruct (Nat.eqb_spec x r); [congruence|].
        rewrite Nat.eqb_refl. reflexivity.
    + destruct (list_remove r acc) as [l0|e] eqn:E0; [|discriminate].
      intros [= <-]. inversion F as [|? ? Hxy F0]; subst.
      unfold not_after in Hxy. rewrite Hxy. simpl.
      destruct (Nat.eqb_spec x r); [congruence|].
      destruct (Nat.eqb_spec y r); [congruence|].
      rewrite E0. reflexivity.
Qed.

(** Order stated on positions. *)
Lemma StronglySorted_lookup {A} (R : A -> A -> Prop) (l : list A) :
  StronglySorted R l <->
  (forall i j x y, (i < j)%nat -> l !! i = Some x -> l !! j = Some y -> R x y).
Proof.
  split.
  - induction 1 as [|a l S IH F]; intros i j x y Hij Hi Hj.
    + rewrite lookup_nil in Hi. discriminate.
    + destruct j as [|j]; [lia|]. simpl in Hj. destruct i as [|i]; simpl in Hi.
      * injection Hi as ->. rewrite Forall_forall in F. apply F.
        eapply list_elem_of_lookup_2. exact Hj.
      * eapply IH; [|exact Hi|exact Hj]. lia.
  - induction l as [|a l IH]; intros Hl; constructor.
    + apply IH. intros i j x y Hij Hi Hj. apply (Hl (S i) (S j)); auto. lia.
    + apply Forall_forall. intros y Hy.
      apply list_elem_of_lookup_1 in Hy as [j Hj].
      apply (Hl O (S j)); auto. lia.
Qed.

End PyFacts.

(** ** Properties of lab3.py *)

Module Lab3Facts.
Import Lab3 PyFacts.
Local Open Scope py_scope.

Section WithLower.
Context {L : StrLower}.

(** *** What each method does to the world *)

Lemma for_each_call_update (obs : list Observer) (w : World) :
  for_each obs call_update w =
  Ok (tt, mkWorld (self w) (heap w) (updates w ++ obs)).
Proof.
  revert w; induction obs as [|o obs IH]; intros [m h u]; simpl.
  - unfold ret. rewrite app_nil_r. reflexivity.
  - unfold bind, call_update; simpl. rewrite IH; simpl.
    rewrite <- app_assoc. reflexivity.
Qed.

Lemma notify_observers_run (w : World) :
  notify_observers w =
  Ok (tt, mkWorld (self w) (heap w) (updates w ++ observers (self w))).
Proof.
  unfold notify_observers, bind, gets. apply for_each_call_update.
Qed.

Lemma add_recipe_run (r : Ref) (w : World) :
  add_recipe r w =
  Ok (tt, mkWorld (mkRecipeManager
                     (sort (sort_strategy (self w)) (heap w)
                           (recipes (self w) ++ [r]))
                     (observers (self w)) (sort_strategy (self w)))
                  (heap w) (updates w ++ observers (self w))).
Proof.
  unfold add_recipe, sort_recipes, bind, gets, deref, set_recipes; simpl.
  rewrite notify_observers_run. reflexivity.
Qed.

Lemma set_sort_strategy_run (s : SortStrategy) (w : World) :
  set_sort_strategy s w =
  Ok (tt, mkWorld (mkRecipeManager (sort s (heap w) (recipes (self w)))
                                   (observers (self w)) s)
                  (heap w) (updates w ++ observers (self w))).
Proof.
  unfold set_sort_strategy, sort_recipes, bind, gets, deref, set_recipes,
    set_strategy; simpl.
  rewrite notify_observers_run. reflexivity.
Qed.

Lemma remove_recipe_absent (r : Ref) (w : World) :
  r ∉ recipes (self w) -> remove_recipe r w = Ok (tt, w).
Proof.
  intros Hr%list_contains_false. unfold remove_recipe, bind, gets.
  rewrite Hr. reflexivity.
Qed.

Lemma remove_recipe_present (r : Ref) (w : World) (l' : list Ref) :
  list_remove r (recipes (self w)) = Ok l' ->
  remove_recipe r w =
  Ok (tt, mkWorld (mkRecipeManager l' (observers (self w))
                                   (sort_strategy (self w)))
                  (heap w) (updates w ++ observers (self w))).
Proof.
  intros Hrm. unfold remove_recipe, bind, gets.
  destruct (list_contains r (recipes (self w))) eqn:Hc.
  - unfold lift, set_recipes. rewrite Hrm.
    rewrite notify_observers_run. reflexivity.
  - apply list_contains_false, list_remove_absent in Hc as [e He].
    congruence.
Qed.

Lemma update_recipe_absent (old new : Ref) (w : World) :
  old ∉ recipes (self w) -> update_recipe old new w = Ok (tt, w).
Proof.
  intros Hr%list_contains_false. unfold update_recipe, bind, gets.
  rewrite Hr. reflexivity.
Qed.

Lemma update_recipe_present (old new : Ref) (w : World) :
  old ∈ recipes (self w) ->
  exists i,
    list_index old (recipes (self w)) = Ok i /\
    update_recipe old new w =
    Ok (tt, mkWorld (mkRecipeManager
                       (sort (sort_strategy (self w)) (heap w)
                             (<[i := new]> (recipes (self w))))
                       (observers (self w)) (sort_strategy (self w)))
                    (heap w) (updates w ++ observers (self w))).
Proof.
  intros Hin. destruct (list_index_in _ _ Hin) as (i & Hi & Hlt).
  exists i. split; [exact Hi|].
  apply list_contains_elem_of in Hin.
  unfold update_recipe, bind, gets. rewrite Hin.
  unfold lift, list_setitem. rewrite Hi.
  apply Nat.ltb_lt in Hlt. rewrite Hlt.
  unfold sort_recipes, bind, gets, deref, set_recipes; simpl.
  rewrite notify_observers_run. reflexivity.
Qed.

(** *** Order *)

Lemma strategy_le_not_after_name (h : Ref -> Recipe) (a b : Ref) :
  Spec.strategy_le SortByName (h a) (h b) <->
  not_after str_ltb (fun r => lower (name (h r))) a b.
Proof.
  unfold not_after; simpl. unfold Spec.name_le.
  symmetry. apply str_ltb_false_lex_le.
Qed.

Lemma strategy_le_not_after_time (h : Ref -> Recipe) (a b : Ref) :
  Spec.strategy_le SortByPreparationTime (h a) (h b) <->
  not_after tuple_ltb
            (fun r => (preparation_time (h r), lower (name (h r)))) a b.
Proof.
  unfold not_after; simpl. unfold Spec.time_then_name_le, Spec.name_le.
  rewrite tuple_ltb_false; simpl. rewrite str_ltb_false_lex_le.
  split; (intros [Hlt|[E Hle]]; [left; exact Hlt|right; split; [congruence|exact Hle]]).
Qed.

(** The order of the specification, read on the keys the code compares. *)
Lemma ordered_StronglySorted (s : SortStrategy) (h : Ref -> Recipe) (l : list Ref) :
  Spec.ordered s h l <->
  match s with
  | SortByName =>
      StronglySorted (not_after str_ltb (fun r => lower (name (h r)))) l
  | SortByPreparationTime =>
      StronglySorted
        (not_after tuple_ltb
                   (fun r => (preparation_time (h r), lower (name (h r))))) l
  end.
Proof.
  unfold Spec.ordered. destruct s; rewrite StronglySorted_lookup; split;
    intros Hl i j x y Hij Hi Hj; specialize (Hl i j x y Hij Hi Hj);
    first [ apply strategy_le_not_after_name; exact Hl
          | apply strategy_le_not_after_time; exact Hl ].
Qed.

(** Every strategy returns its argument in that strategy's order. *)
Lemma sort_ordered (s : SortStrategy) (h : Ref -> Recipe) (l : list Ref) :
  Spec.ordered s h (sort s h l).
Proof.
  apply ordered_StronglySorted. destruct s; simpl.
  - apply sorted_StronglySorted; [apply str_ltb_asym|apply str_le_trans].
  - apply sorted_StronglySorted; [apply tuple_ltb_asym|apply tuple_le_trans].
Qed.

Lemma sort_Permutation (s : SortStrategy) (h : Ref -> Recipe) (l : list Ref) :
  sort s h l ≡ₚ l.
Proof. destruct s; apply sorted_Permutation. Qed.

(** Removing an object keeps the order. *)
Lemma list_remove_ordered (s : SortStrategy) (h : Ref -> Recipe)
      (r : Ref) (l l' : list Ref) :
  list_remove r l = Ok l' -> Spec.ordered s h l -> Spec.ordered s h l'.
Proof.
  intros Hrm. rewrite !ordered_StronglySorted.
  destruct s; eapply list_remove_StronglySorted; exact Hrm.
Qed.

Lemma fresh_world_in_order (h : Ref -> Recipe) : Spec.in_order (fresh_world h).
Proof.
  unfold Spec.in_order, fresh_world; simpl.
  intros i j ri rj _ Hi. rewrite lookup_nil in Hi. discriminate.
Qed.

(** Each call returns, keeps the recipe objects, and leaves the
    collection in order. *)
Lemma call_in_order (o : Op) (w : World) :
  Spec.in_order w ->
  exists w', call o w = Ok (tt, w') /\ Spec.in_order w' /\ heap w' = heap w.
Proof.
  intros Hw. destruct o as [r|r|old new|s|obs]; simpl.
  - eexists. split; [apply add_recipe_run|]. split; [|reflexivity].
    apply sort_ordered.
  - destruct (decide (r ∈ recipes (self w))) as [Hin|Hout].
    + destruct (list_remove_first _ _ Hin) as (i & _ & _ & Hrm).
      eexists. split; [apply remove_recipe_present, Hrm|].
      split; [|reflexivity].
      unfold Spec.in_order; simpl. eapply list_remove_ordered; eassumption.
    + exists w. split; [apply remove_recipe_absent, Hout|]. auto.
  - destruct (decide (old ∈ recipes (self w))) as [Hin|Hout].
    + destruct (update_recipe_present old new w Hin) as (i & _ & Hrun).
      eexists. split; [exact Hrun|]. split; [|reflexivity].
      apply sort_ordered.
    + exists w. split; [apply update_recipe_absent, Hout|]. auto.
  - eexists. split; [apply set_sort_strategy_run|]. split; [|reflexivity].
    apply sort_ordered.
  - eexists. split; [reflexivity|]. split; [exact Hw|reflexivity].
Qed.

Lemma calls_in_order (ops : list Op) (w : World) :
  Spec.in_order w ->
  exists w', calls ops w = Ok (tt, w') /\ Spec.in_order w' /\ heap w' = heap w.
Proof.
  revert w; induction ops as [|o ops IH]; intros w Hw.
  - exists w. split; [reflexivity|]. auto.
  - destruct (call_in_order o w Hw) as (w1 & Hrun & Hw1 & Hh1).
    destruct (IH w1 Hw1) as (w2 & Hruns & Hw2 & Hh2).
    exists w2. split; [|split; [exact Hw2|congruence]].
    unfold calls; simpl. unfold bind. rewrite Hrun. exact Hruns.
Qed.

End WithLower.
End Lab3Facts.

(** ** The claims about lab3.py *)

Module Lab3Claims.
Import Lab3 PyFacts Lab3Facts Examples.
Local Open Scope py_scope.

(** The scenario of the specification: Carbonara (20 min) and Caesar
    (15 min) are added, then the strategy is set to preparation time. *)
Example scenario_by_time :
  calls (L := ascii_lower)
        [Add 0%nat; Add 1%nat; SetSort SortByPreparationTime]
        (fresh_world kitchen)
  = Ok (tt, mkWorld (mkRecipeManager [1%nat; 0%nat] [] SortByPreparationTime)
                    kitchen []).
Proof. reflexivity. Qed.

Example scenario_search_chicken :
  search_recipes (L := ascii_lower) (lit "chicken")
                 (holding kitchen [1%nat; 0%nat])
  = Ok ([1%nat], holding kitchen [1%nat; 0%nat]).
Proof. reflexivity. Qed.

Section WithLower.
Context {L : StrLower}.

(** C1. Starting from an empty manager, every sequence of calls of
    add_recipe, remove_recipe, update_recipe, set_sort_strategy (and
    add_observer) returns, and leaves the collection in the order of the
    strategy that is then active: by lower-cased name for SortByName, by
    preparation time and then lower-cased name for
    SortByPreparationTime.  remove_recipe, which does not sort, is one of
    the calls. *)
Theorem C1_collection_in_order (h : Ref -> Recipe) (ops : list Op) :
  exists w, calls ops (fresh_world h) = Ok (tt, w) /\
            Spec.ordered (sort_strategy (self w)) (heap w) (recipes (self w)).
Proof.
  destruct (calls_in_order ops (fresh_world h) (fresh_world_in_order h))
    as (w & Hrun & Hord & _).
  exists w. split; [exact Hrun|exact Hord].
Qed.

(** C2, amended. In a state reached from an empty manager, for a recipe
    object that is not already in the collection, executing
    AddRecipeCommand and then undoing it returns and gives back the same
    sequence of recipes; strategy and observers are untouched. *)
Theorem C2_add_undo_restores_new_recipe
        (h : Ref -> Recipe) (ops : list Op) (w : World) (r : Ref) :
  calls ops (fresh_world h) = Ok (tt, w) ->
  list_contains r (recipes (self w)) = false ->
  exists w',
    (execute (AddRecipeCommand r) ;; undo (AddRecipeCommand r)) w = Ok (tt, w') /\
    recipes (self w') = recipes (self w) /\
    sort_strategy (self w') = sort_strategy (self w) /\
    observers (self w') = observers (self w) /\
    heap w' = heap w.
Proof.
  intros Hreach Hnew.
  destruct (calls_in_order ops (fresh_world h) (fresh_world_in_order h))
    as (w0 & Hrun & Hord & _).
  rewrite Hreach in Hrun. injection Hrun as <-.
  apply list_contains_false in Hnew.
  assert (Hrm : list_remove r (sort (sort_strategy (self w)) (heap w)
                                    (recipes (self w) ++ [r]))
                = Ok (recipes (self w))).
  { apply ordered_StronglySorted in Hord.
    destruct (sort_strategy (self w)); simpl;
      apply remove_sorted_snoc; assumption. }
  eexists. split.
  - simpl. unfold bind. rewrite add_recipe_run.
    apply remove_recipe_present. simpl. exact Hrm.
  - simpl. auto.
Qed.

End WithLower.

(** C2, witness: Toast (object 2) added to and removed from the manager
    that holds Caesar and Carbonara. *)
Lemma C2_add_undo_witness :
  exists w',
    (execute (L := ascii_lower) (AddRecipeCommand 2%nat) ;;
     undo (L := ascii_lower) (AddRecipeCommand 2%nat))
      (holding kitchen [1%nat; 0%nat])
    = Ok (tt, w') /\
    recipes (self w') = [1%nat; 0%nat] /\
    sort_strategy (self w') = SortByName /\
    observers (self w') = [] /\
    heap w' = kitchen.
Proof.
  apply (C2_add_undo_restores_new_recipe (L := ascii_lower) kitchen
           [Add 0%nat; Add 1%nat] (holding kitchen [1%nat; 0%nat]) 2%nat);
    reflexivity.
Defined.

(** C2 as stated fails: the manager holds the twins, object 0 before
    object 1; AddRecipeCommand on object 0, which is already in the
    collection, executed and undone, leaves object 1 before object 0. *)
Lemma C2_add_undo_counterexample :
  ~ (forall (h : Ref -> Recipe) (ops : list Op) (w w' : World) (r : Ref),
        calls (L := ascii_lower) ops (fresh_world h) = Ok (tt, w) ->
        (execute (L := ascii_lower) (AddRecipeCommand r) ;;
         undo (L := ascii_lower) (AddRecipeCommand r)) w = Ok (tt, w') ->
        recipes (self w') = recipes (self w)).
Proof.
  intros Hclaim.
  specialize (Hclaim twins [Add 0%nat; Add 1%nat]
                     (holding twins [0%nat; 1%nat])
                     (holding twins [1%nat; 0%nat]) 0%nat
                     eq_refl eq_refl).
  discriminate Hclaim.
Qed.

(** C3. remove_recipe(r): when r is in the collection, its first
    occurrence (by identity) is removed and every registered observer is
    notified once, in registration order; when r is not in the
    collection, nothing changes, nobody is notified and nothing is
    raised. *)
Theorem C3_remove_recipe (w : World) (r : Ref) :
  (r ∈ recipes (self w) ->
   exists i,
     recipes (self w) !! i = Some r /\
     (forall j, (j < i)%nat -> recipes (self w) !! j <> Some r) /\
     remove_recipe r w =
     Ok (tt, mkWorld (mkRecipeManager (Spec.without i (recipes (self w)))
                                      (observers (self w))
                                      (sort_strategy (self w)))
                     (heap w) (updates w ++ observers (self w)))) /\
  (r ∉ recipes (self w) -> remove_recipe r w = Ok (tt, w)).
Proof.
  split.
  - intros Hin. destruct (list_remove_first _ _ Hin) as (i & Hi & Hfirst & Hrm).
    exists i. split; [exact Hi|]. split; [exact Hfirst|].
    apply remove_recipe_present, Hrm.
  - apply remove_recipe_absent.
Qed.

(** C3, witness: with observers 7 and 8 registered, removing object 0
    from [1; 0; 1] notifies both; removing object 5 does nothing. *)
Lemma C3_remove_recipe_witness :
  remove_recipe 0%nat
    (mkWorld (mkRecipeManager [1%nat; 0%nat; 1%nat] [7%nat; 8%nat] SortByName)
             kitchen [])
  = Ok (tt, mkWorld (mkRecipeManager [1%nat; 1%nat] [7%nat; 8%nat] SortByName)
                    kitchen [7%nat; 8%nat]) /\
  remove_recipe 5%nat (holding kitchen [1%nat; 0%nat])
  = Ok (tt, holding kitchen [1%nat; 0%nat]).
Proof.
  split.
  - reflexivity.
  - apply (C3_remove_recipe (holding kitchen [1%nat; 0%nat]) 5%nat).
    apply list_contains_false. reflexivity.
Defined.

Section WithLower.
Context {L : StrLower}.

Lemma existsb_contains (k : str) (ings : list str) :
  existsb (fun ing => contains (lower ing) k) ings = true <->
  exists ing, ing ∈ ings /\ Spec.substring k (lower ing).
Proof.
  rewrite existsb_exists. split.
  - intros (ing & Hin & Hc). exists ing. split.
    + apply list_elem_of_In, Hin.
    + apply contains_substring, Hc.
  - intros (ing & Hin & Hc). exists ing. split.
    + apply list_elem_of_In, Hin.
    + apply contains_substring, Hc.
Qed.

Lemma interpret_matches (k : str) (r : Recipe) :
  interpret (KeywordExpression_init k) r = true <-> Spec.matches k r.
Proof.
  unfold interpret, KeywordExpression_init, Spec.matches, Spec.ci_substring.
  simpl. rewrite orb_true_iff, contains_substring, existsb_contains.
  reflexivity.
Qed.

Lemma filter_selects {A} (f : A -> bool) (P : A -> Prop) (l : list A) :
  (forall x, f x = true <-> P x) -> Spec.selects P l (List.filter f l).
Proof.
  intros Hf. induction l as [|x l IH]; simpl; [constructor|].
  destruct (f x) eqn:E.
  - apply Spec.selects_keep; [apply Hf, E|exact IH].
  - apply Spec.selects_drop; [|exact IH].
    intros HP%Hf. congruence.
Qed.

(** C5. interpret is true exactly when the keyword is a substring, case
    ignored, of the name or of some ingredient; the empty keyword matches
    every recipe (the lower-cased empty string being empty); and
    search_recipes returns, in collection order, exactly the recipes of
    the collection for which that holds. *)
Theorem C5_keyword_search :
  (forall (k : str) (r : Recipe),
      interpret (KeywordExpression_init k) r = true <->
      Spec.ci_substring k (name r) \/
      exists ing, ing ∈ ingredients r /\ Spec.ci_substring k ing) /\
  (lower [] = [] ->
   forall r : Recipe, interpret (KeywordExpression_init []) r = true) /\
  (forall (query : str) (w : World),
      exists found,
        search_recipes query w = Ok (found, w) /\
        Spec.selects (fun r => Spec.matches query (heap w r))
                     (recipes (self w)) found).
Proof.
  split; [|split].
  - intros k r. apply interpret_matches.
  - intros Hempty r. unfold interpret, KeywordExpression_init; simpl.
    rewrite Hempty, contains_empty. reflexivity.
  - intros query w. eexists. split; [reflexivity|].
    apply filter_selects. intros r. apply interpret_matches.
Qed.

(** C10. search_recipes returns and leaves the world as it was: the
    collection, the strategy, the observers, the recipe objects, and the
    record of observer calls (nobody is notified). *)
Theorem C10_search_is_read_only (query : str) (w : World) :
  exists found,
    search_recipes query w = Ok (found, w) /\
    forall w', search_recipes query w = Ok (found, w') ->
               recipes (self w') = recipes (self w) /\
               sort_strategy (self w') = sort_strategy (self w) /\
               observers (self w') = observers (self w) /\
               updates w' = updates w.
Proof.
  eexists. split; [reflexivity|].
  intros w' [= <-]. auto.
Qed.

End WithLower.

(** C5, witness: with ASCII case folding the empty keyword matches
    Carbonara, and "chicken" finds Caesar only. *)
Lemma C5_keyword_search_witness :
  interpret (L := ascii_lower)
            (KeywordExpression_init (L := ascii_lower) []) carbonara = true /\
  (Spec.ci_substring (L := ascii_lower) (lit "CHICKEN") (name caesar) \/
   exists ing, ing ∈ ingredients caesar /\
               Spec.ci_substring (L := ascii_lower) (lit "CHICKEN") ing).
Proof.
  pose proof (C5_keyword_search (L := ascii_lower)) as (Hiff & Hempty & _).
  split.
  - exact (Hempty eq_refl carbonara).
  - exact (proj1 (Hiff (lit "CHICKEN") caesar) eq_refl).
Defined.

(** C7. The chain NameValidator -> IngredientsValidator succeeds exactly
    when the name is not blank and there is an ingredient.  A blank name
    raises the name-required error after the name check alone; a good
    name with no ingredient raises the ingredients-required error after
    both checks.  On Recipe("", [], "", 0) the name check raises and the
    ingredients check does not run. *)
Theorem C7_validator_chain :
  (forall recipe : Recipe,
      (validate name_then_ingredients recipe).2 = Ok tt <->
      Spec.nonblank (name recipe) /\ ingredients recipe <> []) /\
  (forall recipe : Recipe,
      ~ Spec.nonblank (name recipe) ->
      validate name_then_ingredients recipe
      = ([VName], Raise (ValueError NAME_REQUIRED))) /\
  (forall recipe : Recipe,
      Spec.nonblank (name recipe) -> ingredients recipe = [] ->
      validate name_then_ingredients recipe
      = ([VName; VIngredients], Raise (ValueError INGREDIENTS_REQUIRED))) /\
  validate name_then_ingredients (mkRecipe [] [] [] 0)
  = ([VName], Raise (ValueError NAME_REQUIRED)).
Proof.
  assert (Hname : forall recipe,
             truthy (strip (name recipe)) = true <-> Spec.nonblank (name recipe))
    by (intros; apply strip_truthy).
  split; [|split; [|split]].
  - intros recipe. specialize (Hname recipe).
    unfold name_then_ingredients; simpl.
    destruct (truthy (strip (name recipe))); simpl.
    + destruct (ingredients recipe) as [|ing ings]; simpl.
      * split; [discriminate|]. intros [_ Hne]; congruence.
      * split; [|reflexivity]. intros _. split; [apply Hname; reflexivity|].
        discriminate.
    + split; [discriminate|]. intros [Hnb _]. apply Hname in Hnb. discriminate.
  - intros recipe Hblank. specialize (Hname recipe).
    unfold name_then_ingredients; simpl.
    destruct (truthy (strip (name recipe))); simpl; [|reflexivity].
    exfalso. apply Hblank, Hname. reflexivity.
  - intros recipe Hnb Hnone. apply (Hname recipe) in Hnb.
    unfold name_then_ingredients; simpl. rewrite Hnb, Hnone. reflexivity.
  - reflexivity.
Qed.

(** C7, witness: a name of blanks only fails the name check; Carbonara
    without ingredients fails the ingredients check. *)
Lemma C7_validator_chain_witness :
  validate name_then_ingredients (mkRecipe (lit "  ") [lit "Egg"] [] 5)
  = ([VName], Raise (ValueError NAME_REQUIRED)) /\
  validate name_then_ingredients (mkRecipe (lit "Carbonara") [] [] 20)
  = ([VName; VIngredients], Raise (ValueError INGREDIENTS_REQUIRED)).
Proof.
  destruct C7_validator_chain as (_ & Hblank & Hnone & _).
  split.
  - apply Hblank. intros (c & Hc & Hsp).
    apply list_elem_of_In in Hc. simpl in Hc.
    destruct Hc as [<-|[<-|[]]]; discriminate Hsp.
  - apply Hnone; [|reflexivity].
    exists 67. split; [|reflexivity]. apply list_elem_of_In. left. reflexivity.
Defined.

(** C8. Restoring a recipe from the memento it has just created leaves
    its name, ingredients, instructions and preparation time as they
    were. *)
Theorem C8_memento_round_trip (r : Recipe) :
  restore_from_memento r (create_memento r) = r /\
  name (restore_from_memento r (create_memento r)) = name r /\
  ingredients (restore_from_memento r (create_memento r)) = ingredients r /\
  instructions (restore_from_memento r (create_memento r)) = instructions r /\
  preparation_time (restore_from_memento r (create_memento r))
  = preparation_time r.
Proof. destruct r; repeat split; reflexivity. Qed.

End Lab3Claims.

(** ** The claims about lab2.py *)

Module Lab2Claims.
Import Lab2 PyFacts Examples.

Lemma has_access_iff (p : ProtectedRecipe) :
  has_access p = true <->
  owner (recipe p) = None \/ owner (recipe p) = Some (user p) \/
  user p = lit "admin".
Proof.
  unfold has_access. rewrite !orb_true_iff, str_eqb_eq.
  destruct (owner (recipe p)) as [o|]; simpl.
  - rewrite str_eqb_eq. split.
    + intros [[Hf | ->] | Ha]; [discriminate|auto|auto].
    + intros [Hn | [[= ->] | Ha]]; [discriminate|auto|auto].
  - split; auto.
Qed.

(** C6. has_access holds exactly when the owner is None, or the owner is
    the user, or the user is "admin".  With access, get_description and
    get_ingredients are those of the wrapped recipe; without access they
    are the access-denied marker and the empty list.  Both are plain
    values in either case: nothing is raised. *)
Theorem C6_protected_recipe (p : ProtectedRecipe) :
  (has_access p = true <->
   owner (recipe p) = None \/ owner (recipe p) = Some (user p) \/
   user p = lit "admin") /\
  (has_access p = true ->
   get_description p = Recipe_get_description (recipe p) /\
   get_ingredients p = Recipe_get_ingredients (recipe p)) /\
  (has_access p = false ->
   get_description p = ACCESS_DENIED /\ get_ingredients p = []).
Proof.
  split; [apply has_access_iff|].
  unfold get_description, get_ingredients.
  split; intros ->; split; reflexivity.
Qed.

(** C6, witness: alice's pie is readable by alice and by admin, and bob
    gets the marker and no ingredient. *)
Lemma C6_protected_recipe_witness :
  get_ingredients (mkProtectedRecipe alice_pie (lit "alice"))
  = [lit "Flour"; lit "Apple"] /\
  get_ingredients (mkProtectedRecipe alice_pie (lit "admin"))
  = [lit "Flour"; lit "Apple"] /\
  get_description (mkProtectedRecipe alice_pie (lit "bob")) = ACCESS_DENIED /\
  get_ingredients (mkProtectedRecipe alice_pie (lit "bob")) = [].
Proof.
  pose proof (C6_protected_recipe (mkProtectedRecipe alice_pie (lit "alice")))
    as (_ & Halice & _).
  pose proof (C6_protected_recipe (mkProtectedRecipe alice_pie (lit "admin")))
    as (_ & Hadmin & _).
  pose proof (C6_protected_recipe (mkProtectedRecipe alice_pie (lit "bob")))
    as (_ & _ & Hbob).
  split; [exact (proj2 (Halice eq_refl))|].
  split; [exact (proj2 (Hadmin eq_refl))|].
  exact (Hbob eq_refl).
Defined.

(** C9, amended. For an id that is not a key of the repository,
    RecipeManager.get_recipe returns None, and raises nothing. *)
Theorem C9_get_recipe_miss_is_None
        (m : RecipeManager) (recipe_id user : str) :
  recipes (repository m) !! recipe_id = None ->
  RecipeManager_get_recipe m recipe_id user = None.
Proof.
  intros Hmiss. unfold RecipeManager_get_recipe, get_recipe.
  rewrite Hmiss. reflexivity.
Qed.

(** C9, witness: the empty repository. *)
Lemma C9_get_recipe_miss_witness :
  RecipeManager_get_recipe (mkRecipeManager InMemoryRecipeRepository_init)
                           (lit "id-1") (lit "alice") = None.
Proof.
  apply (C9_get_recipe_miss_is_None
           (mkRecipeManager InMemoryRecipeRepository_init)
           (lit "id-1") (lit "alice")).
  reflexivity.
Defined.

(** C9 as stated fails: on a miss no object comes back, in particular no
    sentinel recipe; the empty repository asked for "id-1" gives None. *)
Lemma C9_get_recipe_miss_counterexample :
  ~ (forall (m : RecipeManager) (recipe_id user : str),
        recipes (repository m) !! recipe_id = None ->
        exists p : ProtectedRecipe,
          RecipeManager_get_recipe m recipe_id user = Some p).
Proof.
  intros Hclaim.
  destruct (Hclaim (mkRecipeManager InMemoryRecipeRepository_init)
                   (lit "id-1") (lit "alice") eq_refl) as [p Hp].
  discriminate Hp.
Qed.

(** A hit, for comparison: a saved recipe comes back wrapped for the
    asking user. *)
Lemma get_recipe_hit (m : RecipeManager) (r : Recipe) (user : str) :
  RecipeManager_get_recipe (RecipeManager_add_recipe m r) (id r) user
  = Some (mkProtectedRecipe r user).
Proof.
  unfold RecipeManager_get_recipe, RecipeManager_add_recipe, get_recipe,
    save_recipe; simpl.
  rewrite lookup_insert_eq. reflexivity.
Qed.

End Lab2Claims.

(** ** Calls that raise on a missing element *)

Module Raising.
Import PyFacts.

(** C4. Two manager operations raise where the specification promises a
    no-op.  lab2: delete_recipe asks the repository for an attribute
    delete_recipe that it does not have, so it raises AttributeError for
    every id, stored or not.  lab3: remove_observer of an observer that
    is not registered raises the ValueError of list.remove. *)
Theorem C4_missing_element_raises :
  (forall (m : Lab2.RecipeManager) (recipe_id : str),
      Lab2.RecipeManager_delete_recipe m recipe_id
      = Raise (AttributeError (lit "delete_recipe"))) /\
  (forall (w : Lab3.World) (observer : Lab3.Observer),
      observer ∉ Lab3.observers (Lab3.self w) ->
      exists e, Lab3.remove_observer observer w = Raise e) /\
  Lab3.remove_observer 7%nat (Lab3.fresh_world Examples.kitchen)
  = Raise (ValueError (lit "list.remove(x): x not in list")).
Proof.
  split; [|split].
  - intros m recipe_id. reflexivity.
  - intros w observer Hout.
    destruct (list_remove_absent _ _ Hout) as [e He].
    exists e. unfold Lab3.remove_observer, Lab3.bind, Lab3.gets, Lab3.lift.
    rewrite He. reflexivity.
  - reflexivity.
Qed.

End Raising.

(** ** Further properties of lab3.py *)

Module Lab3More.
Import Lab3 Lab3Rest PyFacts Lab3Facts Examples.
Local Open Scope py_scope.

(** *** Helper facts *)

(** [index] finds the first position of an item of the list. *)
Lemma list_index_first (x : nat) (l : list nat) :
  x ∈ l ->
  exists i, list_index x l = Ok i /\ l !! i = Some x /\
            (forall j, (j < i)%nat -> l !! j <> Some x).
Proof.
  induction l as [|y l IH]; intros Hx; [inversion Hx|].
  simpl. destruct (Nat.eqb_spec y x) as [->|Hne].
  - exists O. split; [reflexivity|]. split; [reflexivity|lia].
  - apply elem_of_cons in Hx as [E|Hx]; [congruence|].
    destruct (IH Hx) as (i & -> & Hi & Hfirst).
    exists (S i). split; [reflexivity|]. split; [exact Hi|].
    intros [|j] Hj; simpl; [congruence|]. apply Hfirst. lia.
Qed.

Lemma without_Permutation (l : list nat) (i : nat) (x : nat) :
  l !! i = Some x -> l ≡ₚ x :: Spec.without i l.
Proof.
  intros Hi. unfold Spec.without.
  rewrite <- (take_drop_middle l i x Hi) at 1.
  symmetry. apply Permutation_middle.
Qed.

Lemma insert_Permutation (l : list nat) (i : nat) (x y : nat) :
  l !! i = Some x -> <[i := y]> l ≡ₚ y :: Spec.without i l.
Proof.
  unfold Spec.without. revert i; induction l as [|z l IH]; intros [|i] Hi;
    simpl in *; try discriminate.
  - rewrite drop_0. reflexivity.
  - rewrite (IH i Hi). apply Permutation_swap.
Qed.

(** Two sequences in order with the same items are the same sequence,
    when no two different items may stand either way round. *)
Lemma StronglySorted_Permutation_eq {A} (R : A -> A -> Prop) (l1 l2 : list A) :
  StronglySorted R l1 -> StronglySorted R l2 -> l1 ≡ₚ l2 ->
  (forall x y, x ∈ l1 -> y ∈ l1 -> R x y -> R y x -> x = y) ->
  l1 = l2.
Proof.
  intros S1; revert l2; induction S1 as [|x t1 S1 IH F1]; intros l2 S2 Hp Hanti.
  - apply Permutation_nil in Hp. congruence.
  - destruct S2 as [|y t2 S2 F2].
    { symmetry in Hp. apply Permutation_nil in Hp. discriminate. }
    assert (Hxy : x = y).
    { assert (Hx : x ∈ y :: t2) by (rewrite <- Hp; left).
      assert (Hy : y ∈ x :: t1) by (rewrite Hp; left).
      apply elem_of_cons in Hx as [E|Hx]; [exact E|].
      apply elem_of_cons in Hy as [E|Hy]; [congruence|].
      rewrite Forall_forall in F1, F2.
      apply Hanti; [left|right; exact Hy|apply F1, Hy|apply F2, Hx]. }
    subst y. f_equal. apply IH; [exact S2| |].
    + eapply Permutation_cons_inv. exact Hp.
    + intros a b Ha Hb. apply Hanti; right; assumption.
Qed.

Section SortedMore.
Context {A K : Type} (ltb : K -> K -> bool) (key : A -> K).
Hypothesis ltb_asym : forall a b, ltb a b = true -> ltb b a = false.
Hypothesis le_trans :
  forall a b c, ltb b a = false -> ltb c b = false -> ltb c a = false.

(** Sorting what is sorted changes nothing. *)
Lemma sorted_idempotent (l : list A) :
  sorted ltb key (sorted ltb key l) = sorted ltb key l.
Proof. apply sorted_fixed, sorted_StronglySorted; assumption. Qed.

(** Items with one and the same key come out in the order they went in. *)
Lemma sorted_stable `{EqDecision K} (k : K) (l : list A) :
  filter (fun x => key x = k) (sorted ltb key l)
  = filter (fun x => key x = k) l.
Proof.
  assert (Hirr : forall a, ltb a a = false).
  { intros a. destruct (ltb a a) eqn:E; [|reflexivity].
    rewrite (ltb_asym _ _ E) in E. discriminate. }
  assert (Hins : forall x acc,
             filter (fun x => key x = k) (insert_sorted ltb key x acc)
             = filter (fun x => key x = k) (x :: acc)).
  { intros x acc. induction acc as [|y acc IHacc]; simpl; [reflexivity|].
    destruct (ltb (key y) (key x)) eqn:E; [|reflexivity].
    rewrite (filter_cons _ y), IHacc, !(filter_cons _ x), (filter_cons _ y).
    destruct (decide (key y = k)) as [Hy|Hy], (decide (key x = k)) as [Hx|Hx];
      try reflexivity.
    rewrite Hy, Hx, Hirr in E. discriminate. }
  induction l as [|x l IH]; simpl; [reflexivity|].
  rewrite Hins, !(filter_cons _ x), IH. reflexivity.
Qed.
End SortedMore.

Section WithLower.
Context {L : StrLower}.

(** X1. Both strategies are idempotent: sorting a sorted sequence again
    gives the same sequence. *)
Theorem sort_idempotent (s : SortStrategy) (h : Ref -> Recipe) (l : list Ref) :
  sort s h (sort s h l) = sort s h l.
Proof.
  destruct s; simpl.
  - apply sorted_idempotent; [apply str_ltb_asym|apply str_le_trans].
  - apply sorted_idempotent; [apply tuple_ltb_asym|apply tuple_le_trans].
Qed.

(** X2. Both strategies are stable: the recipes that have one and the
    same key (lower-cased name, or time and lower-cased name) come out
    in the order in which they went in. *)
Theorem sort_stable (h : Ref -> Recipe) (l : list Ref) :
  (forall n : str,
      filter (fun r => lower (name (h r)) = n) (SortByName_sort h l)
      = filter (fun r => lower (name (h r)) = n) l) /\
  (forall k : Z * str,
      filter (fun r => (preparation_time (h r), lower (name (h r))) = k)
             (SortByPreparationTime_sort h l)
      = filter (fun r => (preparation_time (h r), lower (name (h r))) = k) l).
Proof.
  split; intros k.
  - apply (sorted_stable str_ltb (fun r => lower (name (h r)))),
      str_ltb_asym.
  - apply (sorted_stable tuple_ltb
             (fun r => (preparation_time (h r), lower (name (h r))))),
      tuple_ltb_asym.
Qed.


End WithLower.


(** *** The manager's methods *)

Lemma remove_snoc_absent (x : nat) (l : list nat) :
  x ∉ l -> list_remove x (l ++ [x]) = Ok l.
Proof.
  induction l as [|y l IH]; intros Hx; simpl.
  - rewrite Nat.eqb_refl. reflexivity.
  - apply not_elem_of_cons in Hx as [Hne Hx].
    destruct (Nat.eqb_spec y x); [congruence|]. rewrite (IH Hx). reflexivity.
Qed.

Section WithLower.
Context {L : StrLower}.

Lemma ordered_StronglySorted_le (s : SortStrategy) (h : Ref -> Recipe)
      (l : list Ref) :
  Spec.ordered s h l <->
  StronglySorted (fun a b => Spec.strategy_le s (h a) (h b)) l.
Proof. unfold Spec.ordered. symmetry. apply StronglySorted_lookup. Qed.

(** A collection in order is determined by its items when there are no
    ties. *)
Lemma ordered_Permutation_eq (s : SortStrategy) (h : Ref -> Recipe)
      (l1 l2 : list Ref) :
  Spec.ordered s h l1 -> Spec.ordered s h l2 -> l1 ≡ₚ l2 ->
  no_ties s h l1 -> l1 = l2.
Proof.
  rewrite !ordered_StronglySorted_le. intros S1 S2 Hp Hties.
  eapply StronglySorted_Permutation_eq; eauto.
Qed.

Lemma update_recipe_present_first (old new : Ref) (w : World) :
  old ∈ recipes (self w) ->
  exists i,
    recipes (self w) !! i = Some old /\
    (forall j, (j < i)%nat -> recipes (self w) !! j <> Some old) /\
    update_recipe old new w =
    Ok (tt, mkWorld (mkRecipeManager
                       (sort (sort_strategy (self w)) (heap w)
                             (<[i := new]> (recipes (self w))))
                       (observers (self w)) (sort_strategy (self w)))
                    (heap w) (updates w ++ observers (self w))).
Proof.
  intros Hin.
  destruct (list_index_first _ _ Hin) as (i & Hidx & Hi & Hfirst).
  destruct (update_recipe_present old new w Hin) as (i' & Hidx' & Hrun).
  assert (i' = i) as -> by congruence.
  exists i. auto.
Qed.

(** X4. add_recipe returns; the collection then holds the old recipes
    and the new one, nothing else, in the order of the active strategy
    (whatever the order was before); every observer gets one update(),
    in registration order; strategy, observers and recipe objects are
    as before. *)
Theorem add_recipe_effect (r : Ref) (w : World) :
  exists w',
    add_recipe r w = Ok (tt, w') /\
    recipes (self w') ≡ₚ r :: recipes (self w) /\
    Spec.in_order w' /\
    sort_strategy (self w') = sort_strategy (self w) /\
    observers (self w') = observers (self w) /\
    heap w' = heap w /\
    updates w' = updates w ++ observers (self w).
Proof.
  eexists. split; [apply add_recipe_run|]. simpl.
  split; [|split; [apply sort_ordered|auto]].
  rewrite sort_Permutation. symmetry. apply Permutation_cons_append.
Qed.


(** X6. set_sort_strategy(s) returns; the strategy is then s, the
    collection has the same recipes, now in the order of s, and every
    observer gets one update().  Setting the same strategy once more
    leaves the collection as it is and only notifies again. *)
Theorem set_sort_strategy_effect (s : SortStrategy) (w : World) :
  exists w',
    set_sort_strategy s w = Ok (tt, w') /\
    sort_strategy (self w') = s /\
    recipes (self w') ≡ₚ recipes (self w) /\
    Spec.ordered s (heap w') (recipes (self w')) /\
    updates w' = updates w ++ observers (self w) /\
    set_sort_strategy s w'
    = Ok (tt, mkWorld (self w') (heap w')
                      (updates w' ++ observers (self w'))).
Proof.
  eexists. split; [apply set_sort_strategy_run|]. simpl.
  split; [reflexivity|]. split; [apply sort_Permutation|].
  split; [apply sort_ordered|]. split; [reflexivity|].
  rewrite set_sort_strategy_run; simpl. rewrite sort_idempotent.
  reflexivity.
Qed.

(** X7. DeleteRecipeCommand executed and undone returns and leaves the
    collection in order.  If the recipe was in the collection, the same
    recipes are there afterwards, and in the same sequence when the
    collection was in order and had no ties.  If the recipe was not in
    the collection, execute does nothing and undo adds it. *)
Theorem delete_undo_effect (r : Ref) (w : World) :
  exists w',
    (execute (DeleteRecipeCommand r) ;; undo (DeleteRecipeCommand r)) w
    = Ok (tt, w') /\
    Spec.in_order w' /\
    (r ∈ recipes (self w) -> recipes (self w') ≡ₚ recipes (self w)) /\
    (r ∈ recipes (self w) -> Spec.in_order w ->
     no_ties (sort_strategy (self w)) (heap w) (recipes (self w)) ->
     recipes (self w') = recipes (self w)) /\
    (r ∉ recipes (self w) -> recipes (self w') ≡ₚ r :: recipes (self w)).
Proof.
  simpl. unfold bind.
  destruct (decide (r ∈ recipes (self w))) as [Hin|Hout].
  - destruct (list_remove_first _ _ Hin) as (i & Hi & _ & Hrm).
    rewrite (remove_recipe_present r w _ Hrm), add_recipe_run; simpl.
    eexists. split; [reflexivity|]. simpl.
    assert (Hperm : sort (sort_strategy (self w)) (heap w)
                         (Spec.without i (recipes (self w)) ++ [r])
                    ≡ₚ recipes (self w)).
    { rewrite sort_Permutation, <- Permutation_cons_append.
      symmetry. apply without_Permutation, Hi. }
    split; [apply sort_ordered|]. split; [intros _; exact Hperm|].
    split; [|intros Hout; contradiction].
    intros _ Hord Hties. symmetry.
    eapply ordered_Permutation_eq; eauto.
    + apply sort_ordered.
    + symmetry. exact Hperm.
  - rewrite (remove_recipe_absent r w Hout), add_recipe_run.
    eexists. split; [reflexivity|]. simpl.
    split; [apply sort_ordered|]. split; [intros Hin; contradiction|].
    split; [intros Hin; contradiction|]. intros _.
    rewrite sort_Permutation. symmetry. apply Permutation_cons_append.
Qed.

(** X8. EditRecipeCommand executed and undone returns.  If old was in
    the collection, the same recipes are there afterwards, in order, and
    in the same sequence when the collection was in order and had no
    ties.  If neither old nor new was in the collection, nothing
    changes.  If old was not in the collection but new was, execute does
    nothing and undo replaces the first occurrence of new by old. *)
Theorem edit_undo_effect (old new : Ref) (w : World) :
  exists w',
    (execute (EditRecipeCommand old new) ;;
     undo (EditRecipeCommand old new)) w = Ok (tt, w') /\
    (old ∈ recipes (self w) ->
     recipes (self w') ≡ₚ recipes (self w) /\ Spec.in_order w') /\
    (old ∈ recipes (self w) -> Spec.in_order w ->
     no_ties (sort_strategy (self w)) (heap w) (recipes (self w)) ->
     recipes (self w') = recipes (self w)) /\
    (old ∉ recipes (self w) -> new ∉ recipes (self w) -> w' = w) /\
    (old ∉ recipes (self w) -> new ∈ recipes (self w) ->
     exists j, recipes (self w) !! j = Some new /\
               (forall k, (k < j)%nat -> recipes (self w) !! k <> Some new) /\
               recipes (self w') ≡ₚ old :: Spec.without j (recipes (self w))).
Proof.
  simpl. unfold bind.
  destruct (decide (old ∈ recipes (self w))) as [Hin|Hout].
  - destruct (update_recipe_present_first old new w Hin)
      as (i & Hi & _ & Hrun).
    rewrite Hrun.
    set (l1 := sort (sort_strategy (self w)) (heap w)
                    (<[i := new]> (recipes (self w)))).
    assert (Hl1 : l1 ≡ₚ new :: Spec.without i (recipes (self w))).
    { unfold l1. rewrite sort_Permutation. eapply insert_Permutation, Hi. }
    set (w1 := mkWorld _ _ _).
    assert (Hnew : new ∈ recipes (self w1)).
    { simpl. fold l1. rewrite Hl1. left. }
    destruct (update_recipe_present_first new old w1 Hnew)
      as (j & Hj & _ & Hrun1).
    rewrite Hrun1. simpl in *. fold l1 in Hj |- *.
    eexists. split; [reflexivity|]. simpl.
    assert (Hperm : sort (sort_strategy (self w)) (heap w) (<[j := old]> l1)
                    ≡ₚ recipes (self w)).
    { transitivity (old :: Spec.without i (recipes (self w)));
        [|symmetry; apply without_Permutation, Hi].
      rewrite sort_Permutation, (insert_Permutation _ _ _ _ Hj).
      constructor. apply (Permutation_cons_inv (a := new)).
      rewrite <- (without_Permutation _ _ _ Hj). exact Hl1. }
    split; [intros _; split; [exact Hperm|apply sort_ordered]|].
    split; [|split; intros; contradiction].
    intros _ Hord Hties. symmetry.
    eapply ordered_Permutation_eq; eauto.
    + apply sort_ordered.
    + symmetry. exact Hperm.
  - rewrite (update_recipe_absent old new w Hout).
    destruct (decide (new ∈ recipes (self w))) as [Hnew|Hnone].
    + destruct (update_recipe_present_first new old w Hnew)
        as (j & Hj & Hfirst & Hrun).
      rewrite Hrun. eexists. split; [reflexivity|]. simpl.
      split; [intros; contradiction|]. split; [intros; contradiction|].
      split; [intros; contradiction|]. intros _ _.
      exists j. split; [exact Hj|]. split; [exact Hfirst|].
      rewrite sort_Permutation. eapply insert_Permutation, Hj.
    + rewrite (update_recipe_absent new old w Hnone).
      exists w. split; [reflexivity|].
      split; [intros; contradiction|]. split; [intros; contradiction|].
      split; [reflexivity|]. intros; contradiction.
Qed.

End WithLower.

(** X9. remove_observer of a registered observer drops its first
    registration and nothing else, and notifies nobody; add_observer of
    an observer that is not registered, followed by remove_observer,
    gives the world back. *)
Theorem observer_registration (o : Observer) (w : World) :
  (o ∈ observers (self w) ->
   exists i,
     observers (self w) !! i = Some o /\
     (forall j, (j < i)%nat -> observers (self w) !! j <> Some o) /\
     remove_observer o w
     = Ok (tt, mkWorld (mkRecipeManager (recipes (self w))
                                        (Spec.without i (observers (self w)))
                                        (sort_strategy (self w)))
                       (heap w) (updates w))) /\
  (o ∉ observers (self w) ->
   (add_observer o ;; remove_observer o) w = Ok (tt, w)).
Proof.
  split.
  - intros Hin.
    destruct (list_remove_first _ _ Hin) as (i & Hi & Hfirst & Hrm).
    exists i. split; [exact Hi|]. split; [exact Hfirst|].
    unfold remove_observer, bind, gets, lift, set_observers.
    rewrite Hrm. reflexivity.
  - intros Hout. destruct w as [[l obs s] h u]; simpl in *.
    unfold add_observer, remove_observer, bind, gets, lift, set_observers;
      simpl.
    rewrite (remove_snoc_absent _ _ Hout). reflexivity.
Qed.

(** X7, witness: Carbonara deleted from [Caesar; Carbonara] and brought
    back. *)
Lemma delete_undo_witness :
  exists w',
    (execute (L := ascii_lower) (DeleteRecipeCommand 0%nat) ;;
     undo (L := ascii_lower) (DeleteRecipeCommand 0%nat))
      (holding kitchen [1%nat; 0%nat]) = Ok (tt, w') /\
    recipes (self w') = [1%nat; 0%nat].
Proof.
  destruct (delete_undo_effect (L := ascii_lower) 0%nat
              (holding kitchen [1%nat; 0%nat]))
    as (w' & Hrun & _ & _ & Hsame & _).
  exists w'. split; [exact Hrun|]. apply Hsame.
  - apply list_contains_elem_of. reflexivity.
  - change (Spec.ordered (L := ascii_lower) SortByName kitchen
                         (sort (L := ascii_lower) SortByName kitchen
                               [0%nat; 1%nat])).
    apply sort_ordered.
  - intros x y Hx Hy Hxy Hyx.
    apply list_elem_of_In in Hx, Hy. simpl in Hx, Hy.
    apply strategy_le_not_after_name in Hxy, Hyx.
    unfold not_after in Hxy, Hyx.
    destruct Hx as [<-|[<-|[]]], Hy as [<-|[<-|[]]];
      try reflexivity; discriminate.
Defined.

(** X8, witness: Carbonara edited into Toast and back. *)
Lemma edit_undo_witness :
  exists w',
    (execute (L := ascii_lower) (EditRecipeCommand 0%nat 2%nat) ;;
     undo (L := ascii_lower) (EditRecipeCommand 0%nat 2%nat))
      (holding kitchen [1%nat; 0%nat]) = Ok (tt, w') /\
    recipes (self w') ≡ₚ [1%nat; 0%nat].
Proof.
  destruct (edit_undo_effect (L := ascii_lower) 0%nat 2%nat
              (holding kitchen [1%nat; 0%nat]))
    as (w' & Hrun & Hsame & _).
  exists w'. split; [exact Hrun|]. apply Hsame.
  apply list_contains_elem_of. reflexivity.
Defined.


(** X9, witness: observer 7 registered and removed again. *)
Lemma observer_registration_witness :
  (add_observer 7%nat ;; remove_observer 7%nat) (holding kitchen [1%nat])
  = Ok (tt, holding kitchen [1%nat]).
Proof.
  apply (observer_registration 7%nat (holding kitchen [1%nat])).
  apply list_contains_false. reflexivity.
Defined.

End Lab3More.

(** ** Further properties of lab3.py: iteration, validators, dialogs *)

Module Lab3Views.
Import Lab3 Lab3Rest PyFacts Lab3Facts Examples.

Lemma drain_from (w : World) (fuel i : nat) :
  (length (recipes (self w)) - i < fuel)%nat ->
  drain fuel (mkRecipeIterator i) w = Some (drop i (recipes (self w))).
Proof.
  revert i; induction fuel as [|fuel IH]; intros i Hfuel; [lia|].
  simpl. unfold next; simpl.
  destruct (recipes (self w) !! i) as [r|] eqn:Hi.
  - replace (i + 1)%nat with (S i) by lia.
    rewrite IH.
    + erewrite (drop_S _ _ i) by exact Hi. reflexivity.
    + apply lookup_lt_Some in Hi. lia.
  - apply lookup_ge_None in Hi. rewrite drop_ge by lia. reflexivity.
Qed.

(** X10. Iterating over the manager, with the collection left alone
    meanwhile, yields the recipes of the collection, each once, in
    collection order, and then stops: one more __next__ than there are
    recipes is enough.  The rows of the list box are their names in that
    order.  An exhausted iterator keeps raising StopIteration. *)
Theorem iteration_yields_collection (w : World) (fuel : nat) :
  (length (recipes (self w)) < fuel)%nat ->
  drain fuel RecipeManager_iter w = Some (recipes (self w)) /\
  update_list_rows fuel w
  = Some (List.map (fun r => name (heap w r)) (recipes (self w))) /\
  forall i, (length (recipes (self w)) <= i)%nat ->
            next (mkRecipeIterator i) w = (StopIteration, mkRecipeIterator i).
Proof.
  intros Hfuel.
  assert (Hd : drain fuel RecipeManager_iter w = Some (recipes (self w))).
  { unfold RecipeManager_iter. rewrite drain_from by lia. reflexivity. }
  split; [exact Hd|]. split.
  - unfold update_list_rows. rewrite Hd. reflexivity.
  - intros i Hi. unfold next; simpl.
    rewrite (proj2 (lookup_ge_None _ _) Hi). reflexivity.
Qed.

(** X10, witness: the two recipes of the scenario. *)
Lemma iteration_witness :
  drain 3 RecipeManager_iter (holding kitchen [1%nat; 0%nat])
  = Some [1%nat; 0%nat] /\
  update_list_rows 3 (holding kitchen [1%nat; 0%nat])
  = Some [lit "Caesar"; lit "Carbonara"].
Proof.
  destruct (iteration_yields_collection (holding kitchen [1%nat; 0%nat]) 3)
    as (Hd & Hrows & _); [simpl; lia|].
  split; [exact Hd|exact Hrows].
Defined.

(** *** Validator chains *)

Lemma passes_name (recipe : Recipe) :
  truthy (strip (name recipe)) = true <-> passes recipe VName.
Proof. apply strip_truthy. Qed.

Lemma passes_ingredients (recipe : Recipe) :
  truthy (ingredients recipe) = true <-> passes recipe VIngredients.
Proof.
  simpl. destruct (ingredients recipe); simpl; split; congruence.
Qed.

(** Induction on a chain: a property that passes from the rest of a
    chain to the chain holds of every chain. *)
Lemma Validator_chain_ind (P : Validator -> Prop) :
  (forall next, (forall n, next = Some n -> P n) -> P (BaseValidator next)) ->
  (forall next, (forall n, next = Some n -> P n) -> P (NameValidator next)) ->
  (forall next, (forall n, next = Some n -> P n) ->
                P (IngredientsValidator next)) ->
  forall v, P v.
Proof.
  intros HB HN HI. fix IH 1. intros [next|next|next].
  - apply HB. destruct next as [n|]; intros m E; [|discriminate].
    injection E as <-. apply IH.
  - apply HN. destruct next as [n|]; intros m E; [|discriminate].
    injection E as <-. apply IH.
  - apply HI. destruct next as [n|]; intros m E; [|discriminate].
    injection E as <-. apply IH.
Qed.

Lemma validate_all_pass (recipe : Recipe) (v : Validator) :
  Forall (passes recipe) (links v) -> validate v recipe = (links v, Ok tt).
Proof.
  induction v as [next IH|next IH|next IH] using Validator_chain_ind;
    simpl; intros F; inversion F as [|k ks Hk F']; subst.
  - destruct next as [n|]; [|reflexivity].
    rewrite (IH n eq_refl F'). reflexivity.
  - apply passes_name in Hk. rewrite Hk; simpl.
    destruct next as [n|]; [|reflexivity].
    rewrite (IH n eq_refl F'). reflexivity.
  - apply passes_ingredients in Hk. rewrite Hk; simpl.
    destruct next as [n|]; [|reflexivity].
    rewrite (IH n eq_refl F'). reflexivity.
Qed.

Lemma validate_first_failure (recipe : Recipe) (v : Validator)
      (pre post : list Visited) (k : Visited) :
  links v = pre ++ k :: post ->
  Forall (passes recipe) pre -> ~ passes recipe k ->
  validate v recipe = (pre ++ [k], Raise (ValueError (reason k))).
Proof.
  revert pre.
  induction v as [next IH|next IH|next IH] using Validator_chain_ind;
    intros pre Hlinks Hpre Hk; simpl in Hlinks |- *;
    destruct pre as [|p pre']; simpl in Hlinks;
    injection Hlinks as <- Hrest.
  - exfalso. apply Hk. exact I.
  - inversion Hpre; subst.
    destruct next as [n|]; [|destruct pre'; discriminate Hrest].
    rewrite (IH n eq_refl pre') by assumption. reflexivity.
  - destruct (truthy (strip (name recipe))) eqn:E; simpl; [|reflexivity].
    exfalso. apply Hk, passes_name, E.
  - inversion Hpre as [|? ? Hp F]; subst. apply passes_name in Hp.
    rewrite Hp; simpl.
    destruct next as [n|]; [|destruct pre'; discriminate Hrest].
    rewrite (IH n eq_refl pre') by assumption. reflexivity.
  - destruct (truthy (ingredients recipe)) eqn:E; simpl; [|reflexivity].
    exfalso. apply Hk, passes_ingredients, E.
  - inversion Hpre as [|? ? Hp F]; subst. apply passes_ingredients in Hp.
    rewrite Hp; simpl.
    destruct next as [n|]; [|destruct pre'; discriminate Hrest].
    rewrite (IH n eq_refl pre') by assumption. reflexivity.
Qed.

(** X11. For a chain of validators of any length and order: if every
    link's rule holds, validate runs every link and succeeds; otherwise
    it runs the links up to the first one whose rule fails, raises that
    link's error, and runs none of the links after it. *)
Theorem validate_any_chain (recipe : Recipe) (v : Validator) :
  (Forall (passes recipe) (links v) ->
   validate v recipe = (links v, Ok tt)) /\
  (forall pre k post,
      links v = pre ++ k :: post ->
      Forall (passes recipe) pre -> ~ passes recipe k ->
      validate v recipe = (pre ++ [k], Raise (ValueError (reason k)))).
Proof.
  split; [apply validate_all_pass|].
  intros pre k post. apply validate_first_failure.
Qed.

(** X11, witness: with the order of the dialogs' chain reversed, the
    empty recipe fails on the ingredients and the name is not looked
    at. *)
Lemma validate_any_chain_witness :
  validate (IngredientsValidator (Some (NameValidator None)))
           (mkRecipe [] [] [] 0)
  = ([VIngredients], Raise (ValueError INGREDIENTS_REQUIRED)).
Proof.
  apply (proj2 (validate_any_chain
                  (mkRecipe [] [] [] 0)
                  (IngredientsValidator (Some (NameValidator None))))
               [] VIngredients [VName]).
  - reflexivity.
  - constructor.
  - intros Hp. apply Hp. reflexivity.
Defined.

(** *** The dialogs *)

Lemma split_on_nonempty (sep : char) (s : str) : split_on sep s <> [].
Proof.
  induction s as [|c s IH]; simpl; [discriminate|].
  destruct (c =? sep); [discriminate|].
  destruct (split_on sep s); discriminate.
Qed.

Lemma strip_blank (s : str) : ~ Spec.nonblank s -> strip s = [].
Proof.
  intros Hb. destruct (strip s) eqn:E; [reflexivity|].
  exfalso. apply Hb, strip_truthy. rewrite E. reflexivity.
Qed.

(** X12. save of the add and edit dialogs: with a time that is not a
    number it reports that; otherwise it accepts exactly when the name
    is not blank, and then the recipe has the name as typed, the trimmed
    ingredients text split at line ends, and the trimmed instructions.
    The list of ingredients is never empty, so the ingredients check
    never fails here: a blank ingredients box is accepted as the single
    ingredient "". *)
Theorem save_outcome (name_entry ingredients_text instructions_text : str) :
  save name_entry ingredients_text instructions_text None = NotANumber /\
  (forall t : Z,
      (Spec.nonblank name_entry ->
       save name_entry ingredients_text instructions_text (Some t)
       = Accepted (mkRecipe name_entry (split_on 10 (strip ingredients_text))
                            (strip instructions_text) t)) /\
      (~ Spec.nonblank name_entry ->
       save name_entry ingredients_text instructions_text (Some t)
       = Invalid (ValueError NAME_REQUIRED)) /\
      (Spec.nonblank name_entry -> ~ Spec.nonblank ingredients_text ->
       save name_entry ingredients_text instructions_text (Some t)
       = Accepted (mkRecipe name_entry [[]] (strip instructions_text) t))) /\
  (forall parsed_time,
      save name_entry ingredients_text instructions_text parsed_time
      <> Invalid (ValueError INGREDIENTS_REQUIRED)).
Proof.
  assert (Hacc : forall t, Spec.nonblank name_entry ->
             save name_entry ingredients_text instructions_text (Some t)
             = Accepted (mkRecipe name_entry
                                  (split_on 10 (strip ingredients_text))
                                  (strip instructions_text) t)).
  { intros t Hn. unfold save, name_then_ingredients; simpl.
    apply strip_truthy in Hn. rewrite Hn; simpl.
    pose proof (split_on_nonempty 10 (strip ingredients_text)) as Hne.
    destruct (split_on 10 (strip ingredients_text)); [congruence|].
    reflexivity. }
  assert (Hrej : forall t, ~ Spec.nonblank name_entry ->
             save name_entry ingredients_text instructions_text (Some t)
             = Invalid (ValueError NAME_REQUIRED)).
  { intros t Hn. unfold save, name_then_ingredients; simpl.
    destruct (truthy (strip name_entry)) eqn:E; [|reflexivity].
    exfalso. apply Hn, strip_truthy, E. }
  split; [reflexivity|]. split.
  - intros t. split; [apply Hacc|]. split; [apply Hrej|].
    intros Hn Hb. rewrite (Hacc t Hn), (strip_blank _ Hb). reflexivity.
  - intros [t|]; [|discriminate].
    destruct (truthy (strip name_entry)) eqn:E.
    + rewrite Hacc by (apply strip_truthy, E). discriminate.
    + rewrite Hrej; [discriminate|].
      intros Hn%strip_truthy. congruence.
Qed.

(** X12, witness: name "Tea", every other box left empty (each box
    returns its closing line end). *)
Lemma save_outcome_witness :
  save (lit "Tea") [10] [10] (Some 5%Z)
  = Accepted (mkRecipe (lit "Tea") [[]] [] 5).
Proof.
  destruct (save_outcome (lit "Tea") [10] [10]) as (_ & Hsome & _).
  destruct (Hsome 5%Z) as (_ & _ & Hblank).
  apply Hblank.
  - exists 84. split; [|reflexivity]. apply list_elem_of_In. left. reflexivity.
  - intros (c & Hc & Hsp). apply list_elem_of_In in Hc.
    destruct Hc as [<-|[]]. discriminate Hsp.
Defined.

Lemma split_on_cons (sep c : char) (s : str) :
  c <> sep ->
  exists piece pieces,
    split_on sep s = piece :: pieces /\
    split_on sep (c :: s) = (c :: piece) :: pieces.
Proof.
  intros Hc. simpl. destruct (N.eqb_spec c sep); [contradiction|].
  pose proof (split_on_nonempty sep s) as Hne.
  destruct (split_on sep s) as [|piece pieces]; [congruence|]. eauto.
Qed.

Lemma split_on_app_piece (sep : char) (piece s : str) :
  Forall (fun c => c <> sep) piece ->
  exists first rest,
    split_on sep s = first :: rest /\
    split_on sep (piece ++ s) = (piece ++ first) :: rest.
Proof.
  induction 1 as [|c piece Hc F (first & rest & Hs & IH)]; simpl.
  - pose proof (split_on_nonempty sep s) as Hne.
    destruct (split_on sep s) as [|first rest]; [congruence|]. eauto.
  - destruct (N.eqb_spec c sep); [contradiction|].
    rewrite IH. eauto.
Qed.

(** X13. Splitting at a separator and joining with it again gives the
    string back; joining pieces that do not contain the separator and
    splitting again gives the pieces back, when there is at least one.
    This is how the edit dialog shows the ingredients and reads them
    again. *)
Theorem split_join_round_trip (sep : char) :
  (forall s : str, join sep (split_on sep s) = s) /\
  (forall pieces : list str,
      pieces <> [] ->
      Forall (Forall (fun c => c <> sep)) pieces ->
      split_on sep (join sep pieces) = pieces).
Proof.
  split.
  - induction s as [|c s IH]; [reflexivity|].
    simpl. destruct (N.eqb_spec c sep) as [->|Hc].
    + pose proof (split_on_nonempty sep s) as Hne.
      destruct (split_on sep s) as [|p ps] eqn:E; [congruence|].
      change (join sep ([] :: p :: ps)) with ([] ++ sep :: join sep (p :: ps)).
      rewrite IH. reflexivity.
    + pose proof (split_on_nonempty sep s) as Hne.
      destruct (split_on sep s) as [|p ps] eqn:E; [congruence|].
      destruct ps as [|q ps]; simpl in *; rewrite <- IH; reflexivity.
  - intros pieces Hne F. induction F as [|piece pieces Hp F IH]; [congruence|].
    destruct pieces as [|q pieces].
    + simpl. clear IH Hne F.
      induction Hp as [|c piece Hc Hp IHp]; [reflexivity|].
      simpl. destruct (N.eqb_spec c sep); [contradiction|].
      rewrite IHp. reflexivity.
    + change (join sep (piece :: q :: pieces))
        with (piece ++ sep :: join sep (q :: pieces)).
      destruct (split_on_app_piece sep piece (sep :: join sep (q :: pieces)) Hp)
        as (first & rest & Hs & ->).
      assert (Hs' : split_on sep (sep :: join sep (q :: pieces))
                    = [] :: split_on sep (join sep (q :: pieces)))
        by (cbn [split_on]; rewrite N.eqb_refl; reflexivity).
      rewrite Hs' in Hs. injection Hs as <- <-.
      rewrite app_nil_r. f_equal. apply IH. discriminate.
Qed.

(** X13, witness: the ingredients of Carbonara. *)
Lemma split_join_witness :
  split_on 10 (join 10 [lit "Pasta"; lit "Eggs"; lit "Bacon"])
  = [lit "Pasta"; lit "Eggs"; lit "Bacon"].
Proof.
  apply (proj2 (split_join_round_trip 10)).
  - discriminate.
  - repeat constructor; discriminate.
Defined.

End Lab3Views.

(** ** Further properties of lab2.py *)

Module Lab2More.
Import Lab2 Lab2Rest PyFacts Examples.

(** *** Components *)

Lemma Recipe_get_ingredients_flat (r : Recipe) :
  Recipe_get_ingredients r
  = flat_map Component_get_ingredients (components r).
Proof.
  destruct r as [i n c o cs]; simpl.
  induction cs as [|x cs IH]; simpl; [reflexivity|]. rewrite IH. reflexivity.
Qed.

Lemma Recipe_get_description_flat (r : Recipe) :
  Recipe_get_description r
  = (name r ++ lit " (" ++ format_opt (category r) ++ [41; 10]) ++
    flat_map (fun c => lit "- " ++ Component_get_description c ++ [10])
             (components r).
Proof.
  destruct r as [i n c o cs].
  reflexivity.
Qed.

(** X14. add_component appends: the ingredients of the recipe are then
    its former ingredients followed by those of the component, and its
    description is the former description followed by one "- " line for
    the component.  A recipe built from Recipe(name, category, owner) by
    adding the ingredients of a list one by one has exactly that list as
    its ingredients. *)
Theorem add_component_appends :
  (forall (r : Recipe) (c : RecipeComponent),
      Recipe_get_ingredients (add_component r c)
      = Recipe_get_ingredients r ++ Component_get_ingredients c /\
      Recipe_get_description (add_component r c)
      = Recipe_get_description r ++
        lit "- " ++ Component_get_description c ++ [10]) /\
  (forall (new_id name : str) (category owner : option str) (names : list str),
      Recipe_get_ingredients
        (foldl add_component (Recipe_init new_id name category owner)
               (List.map Ingredient names))
      = names).
Proof.
  split.
  - intros r c. rewrite !Recipe_get_ingredients_flat,
      !Recipe_get_description_flat.
    destruct r as [i n ca o cs]; simpl.
    rewrite !flat_map_app; simpl. rewrite !app_nil_r.
    split; [reflexivity|]. rewrite <- !app_assoc. reflexivity.
  - intros new_id name category owner names.
    assert (Hgen : forall r,
               Recipe_get_ingredients
                 (foldl add_component r (List.map Ingredient names))
               = Recipe_get_ingredients r ++ names).
    { induction names as [|n names IH]; intros r; simpl.
      - rewrite app_nil_r. reflexivity.
      - rewrite IH, !Recipe_get_ingredients_flat.
        destruct r as [i n0 ca o cs]; simpl.
        rewrite flat_map_app; simpl. rewrite <- app_assoc. reflexivity. }
    rewrite Hgen. reflexivity.
Qed.

(** *** The ingredient factory *)

Lemma consistent_init : consistent IngredientFactory_init.
Proof.
  intros n obj; simpl. rewrite lookup_empty, lookup_nil. split; discriminate.
Qed.

Lemma get_ingredient_spec (n : str) (w : FactoryWorld) :
  consistent w ->
  consistent (get_ingredient n w).2 /\
  objects (get_ingredient n w).2 !! (get_ingredient n w).1 = Some n /\
  (exists ext, objects (get_ingredient n w).2 = objects w ++ ext /\
               Forall (fun m => m = n) ext).
Proof.
  intros Hw. unfold get_ingredient.
  destruct (ingredients w !! n) as [obj|] eqn:E; simpl.
  - split; [exact Hw|]. split; [apply Hw, E|].
    exists []. rewrite app_nil_r. split; [reflexivity|constructor].
  - split; [|split].
    + intros m obj; simpl. destruct (decide (n = m)) as [->|Hne].
      * rewrite lookup_insert_eq. split.
        -- intros [= <-]. apply list_lookup_middle. reflexivity.
        -- intros Hobj. f_equal.
           destruct (decide (obj < length (objects w))%nat) as [Hlt|Hge].
           ++ rewrite lookup_app_l in Hobj by exact Hlt.
              apply Hw in Hobj. congruence.
           ++ apply lookup_lt_Some in Hobj. rewrite length_app in Hobj.
              simpl in Hobj. lia.
      * rewrite lookup_insert_ne by exact Hne. split.
        -- intros Hobj%Hw. apply lookup_app_l_Some. exact Hobj.
        -- intros Hobj. apply Hw.
           destruct (decide (obj < length (objects w))%nat) as [Hlt|Hge].
           ++ rewrite lookup_app_l in Hobj by exact Hlt. exact Hobj.
           ++ rewrite lookup_app_r in Hobj by lia.
              destruct (obj - length (objects w))%nat; simpl in Hobj;
                [congruence|]. rewrite lookup_nil in Hobj. discriminate.
    + apply list_lookup_middle. reflexivity.
    + exists [n]. split; [reflexivity|]. repeat constructor.
Qed.

Lemma get_ingredients_for_spec (names : list str) (w : FactoryWorld) :
  consistent w ->
  consistent (get_ingredients_for names w).2 /\
  length (get_ingredients_for names w).1 = length names /\
  (forall i obj n,
      (get_ingredients_for names w).1 !! i = Some obj ->
      names !! i = Some n ->
      objects (get_ingredients_for names w).2 !! obj = Some n) /\
  (exists ext, objects (get_ingredients_for names w).2 = objects w ++ ext /\
               Forall (fun m => m ∈ names) ext).
Proof.
  revert w; induction names as [|n names IH]; intros w Hw; simpl.
  - split; [exact Hw|]. split; [reflexivity|]. split.
    + intros i obj m Hi. rewrite lookup_nil in Hi. discriminate.
    + exists []. rewrite app_nil_r. split; [reflexivity|constructor].
  - destruct (get_ingredient_spec n w Hw) as (Hw1 & Hobj & ext1 & Hext1 & F1).
    destruct (get_ingredient n w) as [obj w1]; simpl in *.
    destruct (IH w1 Hw1) as (Hw2 & Hlen & Hall & ext2 & Hext2 & F2).
    destruct (get_ingredients_for names w1) as [objs w2]; simpl in *.
    split; [exact Hw2|]. split; [lia|]. split.
    + intros [|i] o m Hi Hn; simpl in *.
      * injection Hi as <-. injection Hn as <-.
        rewrite Hext2. apply lookup_app_l_Some. exact Hobj.
      * eapply Hall; eassumption.
    + exists (ext1 ++ ext2). rewrite Hext2, Hext1, app_assoc.
      split; [reflexivity|]. apply Forall_app. split.
      * eapply Forall_impl; [exact F1|]. intros m ->. left.
      * eapply Forall_impl; [exact F2|]. intros m Hm. right. exact Hm.
Qed.

(** X15. The factory is a flyweight.  Asked for a list of names, starting
    with no ingredient, it answers each request with an object that
    carries the requested name; two requests get the same object exactly
    when they ask for the same name; and afterwards there is exactly one
    Ingredient object for every name that was asked for, and none for
    any other name. *)
Theorem factory_is_flyweight (names : list str) :
  let objs := (get_ingredients_for names IngredientFactory_init).1 in
  let w := (get_ingredients_for names IngredientFactory_init).2 in
  length objs = length names /\
  (forall i obj n, objs !! i = Some obj -> names !! i = Some n ->
                   objects w !! obj = Some n) /\
  (forall i j a b n m,
      objs !! i = Some a -> objs !! j = Some b ->
      names !! i = Some n -> names !! j = Some m ->
      (a = b <-> n = m)) /\
  NoDup (objects w) /\
  (forall n, n ∈ objects w <-> n ∈ names).
Proof.
  intros objs w. subst objs w.
  destruct (get_ingredients_for_spec names IngredientFactory_init consistent_init)
    as (Hw & Hlen & Hall & ext & Hext & F).
  assert (Hnodup : NoDup (objects (get_ingredients_for names
                                     IngredientFactory_init).2)).
  { apply NoDup_alt. intros a b n Ha Hb.
    apply Hw in Ha, Hb. congruence. }
  split; [exact Hlen|]. split; [exact Hall|]. split; [|split].
  - intros i j a b n m Ha Hb Hn Hm.
    pose proof (Hall i a n Ha Hn) as Hobj_a.
    pose proof (Hall j b m Hb Hm) as Hobj_b.
    split.
    + intros <-. congruence.
    + intros <-. eapply NoDup_lookup; eassumption.
  - exact Hnodup.
  - intros n. split.
    + rewrite Hext; simpl. rewrite Forall_forall in F. apply F.
    + intros Hn. apply list_elem_of_lookup_1 in Hn as [i Hi].
      assert (Hlt : (i < length (get_ingredients_for names
                                   IngredientFactory_init).1)%nat).
      { rewrite Hlen. eapply lookup_lt_Some, Hi. }
      apply lookup_lt_is_Some_2 in Hlt as [obj Hobj].
      eapply list_elem_of_lookup_2, Hall; eassumption.
Qed.

(** *** Search filters *)

Lemma filter_filter_andb {A} (f g : A -> bool) (l : list A) :
  List.filter f (List.filter g l) = List.filter (fun x => f x && g x) l.
Proof.
  induction l as [|x l IH]; simpl; [reflexivity|].
  destruct (g x) eqn:G; simpl.
  - destruct (f x); simpl; rewrite IH; reflexivity.
  - rewrite andb_false_r. exact IH.
Qed.

Lemma filter_sublist {A} (f : A -> bool) (l : list A) :
  List.filter f l `sublist_of` l.
Proof.
  induction l as [|x l IH]; simpl; [constructor|].
  destruct (f x); [apply sublist_skip|apply sublist_cons]; exact IH.
Qed.

Lemma opt_eqb_eq (x : option str) (s : str) :
  opt_eqb x s = true <-> x = Some s.
Proof.
  destruct x as [t|]; simpl.
  - rewrite str_eqb_eq. split; congruence.
  - split; discriminate.
Qed.

Lemma search_filter (s : RecipeSearch) (l : list Recipe) :
  search s l
  = List.filter (fun r => forallb (opt_eqb (category r)) (categories s)) l.
Proof.
  induction s as [|wrapped IH c]; simpl.
  - induction l as [|x l IHl]; simpl; [reflexivity|]. rewrite <- IHl.
    reflexivity.
  - unfold CategoryFilter_filter. rewrite IH, filter_filter_andb.
    reflexivity.
Qed.

(** X16. A search built from category filters only narrows: its result
    is its input with some recipes left out, the others in their order;
    a recipe is kept exactly when its category equals the category of
    every filter of the stack, so the order of the filters does not
    matter and two filters for different categories leave nothing. *)
Theorem search_narrows (s : RecipeSearch) (l : list Recipe) :
  search s l `sublist_of` l /\
  (forall r, r ∈ search s l <->
             r ∈ l /\ forall c, c ∈ categories s -> category r = Some c) /\
  (forall s', categories s' ≡ₚ categories s -> search s' l = search s l) /\
  (forall c1 c2, c1 ∈ categories s -> c2 ∈ categories s -> c1 <> c2 ->
                 search s l = []).
Proof.
  assert (Hmem : forall r, r ∈ search s l <->
             r ∈ l /\ forall c, c ∈ categories s -> category r = Some c).
  { intros r. rewrite search_filter, list_elem_of_In, filter_In,
      <- list_elem_of_In, forallb_forall.
    split; intros [Hr Hc]; (split; [exact Hr|]); intros c Hin.
    - apply opt_eqb_eq, Hc, list_elem_of_In, Hin.
    - apply opt_eqb_eq, Hc, list_elem_of_In, Hin. }
  split; [rewrite search_filter; apply filter_sublist|].
  split; [exact Hmem|]. split.
  - intros s' Hp. rewrite !search_filter. apply filter_ext. intros r.
    apply eq_true_iff_eq. rewrite !forallb_forall.
    split; intros Hc c Hin; apply Hc; apply list_elem_of_In;
      apply list_elem_of_In in Hin; [rewrite Hp|rewrite <- Hp]; exact Hin.
  - intros c1 c2 H1 H2 Hne.
    destruct (search s l) as [|r rest] eqn:E; [reflexivity|].
    assert (Hr : r ∈ r :: rest) by left.
    apply Hmem in Hr as [_ Hc].
    pose proof (Hc c1 H1). pose proof (Hc c2 H2). congruence.
Qed.

(** X16, witness: asking for "Dessert" and then for "Salad" leaves
    nothing of a list that holds alice's pie. *)
Lemma search_narrows_witness :
  search (CategoryFilter (CategoryFilter BaseSearch (lit "Dessert"))
                         (lit "Salad")) [alice_pie] = [].
Proof.
  apply (proj2 (proj2 (proj2 (search_narrows
           (CategoryFilter (CategoryFilter BaseSearch (lit "Dessert"))
                           (lit "Salad")) [alice_pie])))
           (lit "Salad") (lit "Dessert")).
  - left.
  - right. left.
  - discriminate.
Defined.

(** *** The repository *)

(** X17. What add_recipe stores, get_recipe finds: the recipe comes back
    wrapped for the asking user, whatever was stored under its id
    before; every other id is answered as before. *)
Theorem add_then_get (m : RecipeManager) (r : Recipe) (user : str) :
  RecipeManager_get_recipe (RecipeManager_add_recipe m r) (id r) user
  = Some (mkProtectedRecipe r user) /\
  (forall other : str,
      other <> id r ->
      RecipeManager_get_recipe (RecipeManager_add_recipe m r) other user
      = RecipeManager_get_recipe m other user).
Proof.
  unfold RecipeManager_get_recipe, RecipeManager_add_recipe, get_recipe,
    save_recipe; simpl.
  split.
  - rewrite lookup_insert_eq. reflexivity.
  - intros other Hne. rewrite lookup_insert_ne by congruence. reflexivity.
Qed.

(** X17, witness: alice's pie stored in an empty repository; the id
    "id-2" is still unknown. *)
Lemma add_then_get_witness :
  RecipeManager_get_recipe
    (RecipeManager_add_recipe (mkRecipeManager InMemoryRecipeRepository_init)
                              alice_pie)
    (lit "id-2") (lit "bob") = None.
Proof.
  rewrite (proj2 (add_then_get (mkRecipeManager InMemoryRecipeRepository_init)
                               alice_pie (lit "bob")) (lit "id-2"))
    by discriminate.
  reflexivity.
Defined.

(** *** The add-recipe window *)

Lemma lstrip_idempotent (s : str) : lstrip (lstrip s) = lstrip s.
Proof.
  induction s as [|c s IH]; simpl; [reflexivity|].
  destruct (isspace c) eqn:E; [exact IH|]. simpl. rewrite E. reflexivity.
Qed.

Lemma lstrip_snoc (a : str) (c : char) :
  isspace c = false -> lstrip (a ++ [c]) = lstrip a ++ [c].
Proof.
  intros Hc. induction a as [|d a IH]; simpl.
  - rewrite Hc. reflexivity.
  - destruct (isspace d); [exact IH|reflexivity].
Qed.

(** Trimming what is trimmed changes nothing. *)
Lemma strip_idempotent (s : str) : strip (strip s) = strip s.
Proof.
  unfold strip, rstrip.
  assert (Hl : lstrip (rev (lstrip (rev (lstrip s))))
               = rev (lstrip (rev (lstrip s)))).
  { destruct (lstrip s) as [|c t] eqn:E; [reflexivity|].
    pose proof (lstrip_head _ _ _ E) as Hc.
    simpl. rewrite lstrip_snoc by exact Hc.
    rewrite rev_app_distr. simpl. rewrite Hc. reflexivity. }
  rewrite Hl, rev_involutive, lstrip_idempotent. reflexivity.
Qed.

Lemma split_on_no_sep (sep : char) (s : str) :
  Forall (fun c => c <> sep) s -> Lab3Rest.split_on sep s = [s].
Proof.
  induction 1 as [|c s Hc F IH]; simpl; [reflexivity|].
  destruct (N.eqb_spec c sep); [contradiction|]. rewrite IH. reflexivity.
Qed.

(** X18. The ingredients read from the add-recipe window, a text split
    at commas: every ingredient kept is non-empty and trimmed (it has no
    white space at either end), and a text of white space only gives no
    ingredient at all. *)
Theorem parse_ingredients_trimmed (text : str) :
  Forall (fun i => i <> [] /\ strip i = i) (parse_ingredients text) /\
  (~ Spec.nonblank text -> parse_ingredients text = []).
Proof.
  unfold parse_ingredients. split.
  - apply Forall_forall. intros i Hi.
    apply list_elem_of_In, in_map_iff in Hi as (j & <- & Hj).
    apply filter_In in Hj as [_ Hj].
    split; [|apply strip_idempotent].
    destruct (strip j); [discriminate|discriminate].
  - intros Hblank.
    assert (Hsp : Forall (fun c => isspace c = true) text).
    { apply Forall_forall. intros c Hc.
      destruct (isspace c) eqn:E; [reflexivity|].
      exfalso. apply Hblank. exists c. auto. }
    rewrite split_on_no_sep.
    + simpl. destruct (strip text) eqn:E; [reflexivity|].
      exfalso. apply Hblank, strip_truthy. rewrite E. reflexivity.
    + eapply Forall_impl; [exact Hsp|]. intros c Hc ->. discriminate Hc.
Qed.

(** X18, witness: a box that holds two blanks. *)
Lemma parse_ingredients_witness : parse_ingredients [32; 32] = [].
Proof.
  apply (proj2 (parse_ingredients_trimmed [32; 32])).
  intros (c & Hc & Hsp). apply list_elem_of_In in Hc.
  destruct Hc as [<-|[<-|[]]]; discriminate Hsp.
Defined.

End Lab2More.
